(** * A shallow embedding of the youtube-video-downloader front end

    The front end (Next.js, TypeScript) lives in [src/src]: the API client
    [services/api.ts], the format picker [components/VideoInfoCard.tsx] and
    the progress poller [components/DownloadProgress.tsx].

    Conventions of the embedding.
    - A JS [number] coming from the backend (heights, bitrates, sizes,
      retry hints) is modelled as [Z]. The comparators below only use the
      sign of a difference, and for finite doubles the sign of [b - a]
      is the sign of the exact difference.
    - An optional field [x?: number] is [option Z]; JS truthiness of a
      number is "defined and not 0"; of a string, "defined and not empty".
    - [Array.prototype.sort] with a consistent comparator is stable
      (ES2019), so its result is the unique stable sorted permutation;
      it is modelled by a stable insertion sort.
    - A JS object used as a dictionary is an association list kept in
      key-insertion order; [push] appends to the value list. Reading a
      missing key goes on to [Object.prototype] ([js_get]).
    - [Math.log] is implementation-approximated in ECMA-262: it is a
      parameter of [formatFileSize], with an accuracy hypothesis where
      the facts need one. *)

From Stdlib Require Import Rdefinitions Raxioms RIneq Rfunctions R_Ifp Rbasic_fun Exp_prop Rpower.
From Stdlib Require Lra.
From Stdlib Require Import Ascii String List ZArith Lia Bool Sorting.Sorted Permutation QArith Qminmax Lqa.
Import ListNotations.
Open Scope Z_scope.

(** ** JS truthiness and [||] defaults *)

Definition truthy_num (o : option Z) : bool :=
  match o with Some x => negb (x =? 0) | None => false end.

Definition truthy_str (o : option string) : bool :=
  match o with Some s => negb (String.eqb s "") | None => false end.

(** [o || d] for a numeric field. *)
Definition or_num (o : option Z) (d : Z) : Z :=
  match o with Some x => if x =? 0 then d else x | None => d end.

(** ** Formats, as in the [VideoFormat] / [AudioFormat] interfaces *)

Module VideoFormat.
Record VideoFormat := {
  format_id : string;
  width : option Z;
  height : option Z;
  fps : option Z;
  vcodec : option string;
  filesize : option Z;
  tbr : option Z
}.
End VideoFormat.
Abbreviation VideoFormat := VideoFormat.VideoFormat.

Module AudioFormat.
Record AudioFormat := {
  format_id : string;
  acodec : option string;
  abr : option Z;
  filesize : option Z;
  tbr : option Z;
  language : option string;
  language_preference : option Z
}.
End AudioFormat.
Abbreviation AudioFormat := AudioFormat.AudioFormat.

(** ** [Array.prototype.sort] with a comparator returning a number *)

Section JsSort.
Context {A : Type} (cmp : A -> A -> Z).

(** [x] goes before [y] unless [cmp x y > 0]. *)
Fixpoint sort_insert (x : A) (l : list A) : list A :=
  match l with
  | [] => [x]
  | y :: l' => if cmp x y <=? 0 then x :: y :: l' else y :: sort_insert x l'
  end.

Fixpoint js_sort (l : list A) : list A :=
  match l with
  | [] => []
  | x :: l' => sort_insert x (js_sort l')
  end.
End JsSort.

(** ** [Array.prototype.reduce] into a dictionary of groups *)

Section Grouping.
Context {A : Type}.

(** [if (!acc[k]) acc[k] = []; acc[k].push(f);] *)
Fixpoint push_group (acc : list (string * list A)) (k : string) (f : A)
  : list (string * list A) :=
  match acc with
  | [] => [(k, [f])]
  | (k', fs) :: r =>
      if String.eqb k k' then (k', fs ++ [f]) :: r
      else (k', fs) :: push_group r k f
  end.

Definition group_by (key : A -> string) (l : list A) : list (string * list A) :=
  fold_left (fun acc f => push_group acc (key f) f) l [].

Fixpoint lookup (k : string) (d : list (string * list A)) : option (list A) :=
  match d with
  | [] => None
  | (k', v) :: r => if String.eqb k k' then Some v else lookup k r
  end.

(** The group of [k], empty when there is none. *)
Definition group_of (k : string) (d : list (string * list A)) : list A :=
  match lookup k d with Some g => g | None => [] end.
End Grouping.

(** ** The format lists of the first [VideoInfoCard] (lines 170-212) *)

(** [(b.height || 0) - (a.height || 0)], then [(b.tbr || 0) - (a.tbr || 0)]. *)
Definition video_cmp (a b : VideoFormat) : Z :=
  let heightDiff := or_num (VideoFormat.height b) 0 - or_num (VideoFormat.height a) 0 in
  if negb (heightDiff =? 0) then heightDiff
  else or_num (VideoFormat.tbr b) 0 - or_num (VideoFormat.tbr a) 0.

(** [format.height && format.width] *)
Definition video_usable (f : VideoFormat) : bool :=
  truthy_num (VideoFormat.height f) && truthy_num (VideoFormat.width f).

Definition sortedVideoFormats (video_formats : list VideoFormat) : list VideoFormat :=
  js_sort video_cmp (filter video_usable video_formats).

(** [a.abr || a.tbr || 0] *)
Definition audio_bitrate (a : AudioFormat) : Z :=
  or_num (AudioFormat.abr a) (or_num (AudioFormat.tbr a) 0).

Definition audio_cmp (a b : AudioFormat) : Z :=
  let bitrateDiff := audio_bitrate b - audio_bitrate a in
  if negb (bitrateDiff =? 0) then bitrateDiff
  else or_num (AudioFormat.language_preference b) 0
       - or_num (AudioFormat.language_preference a) 0.

(** [format.acodec && format.acodec !== "none"] *)
Definition audio_usable (f : AudioFormat) : bool :=
  truthy_str (AudioFormat.acodec f)
  && negb (match AudioFormat.acodec f with
           | Some s => String.eqb s "none" | None => false end).

Definition sortedAudioFormats (audio_formats : list AudioFormat) : list AudioFormat :=
  js_sort audio_cmp (filter audio_usable audio_formats).

(** The group labels are [getQualityLabel] and [getLanguageDisplay]; the
    properties below hold for any labelling, so the labels are arguments. *)
Definition groupedVideoFormats (getQualityLabel : VideoFormat -> string)
  (video_formats : list VideoFormat) : list (string * list VideoFormat) :=
  group_by getQualityLabel (sortedVideoFormats video_formats).

Definition groupedAudioFormats (getLanguageDisplay : AudioFormat -> string)
  (audio_formats : list AudioFormat) : list (string * list AudioFormat) :=
  group_by getLanguageDisplay (sortedAudioFormats audio_formats).

(** ** The audio groups of the third [VideoInfoCard] (lines 1143-1157) *)

(** [format.language || "unknown"] *)
Definition language_key (f : AudioFormat) : string :=
  match AudioFormat.language f with
  | Some s => if String.eqb s "" then "unknown" else s
  | None => "unknown"
  end.

(** [(b.abr || 0) - (a.abr || 0)] *)
Definition abr_cmp (a b : AudioFormat) : Z :=
  or_num (AudioFormat.abr b) 0 - or_num (AudioFormat.abr a) 0.

Definition groupedAudioFormats_by_language (audio_formats : list AudioFormat)
  : list (string * list AudioFormat) :=
  map (fun '(language, fs) => (language, js_sort abr_cmp fs))
      (group_by language_key audio_formats).

(** Two adjacent elements of a list. *)
Definition adjacent {A} (l : list A) (i : nat) (a b : A) : Prop :=
  nth_error l i = Some a /\ nth_error l (S i) = Some b.

(** ** JS strings and [encodeURIComponent] / [decodeURIComponent]

    A JS string is a list of UTF-16 code units (integers in [0, 0xFFFF]).
    The two functions follow the algorithms Encode and Decode of ECMA-262
    (section "URI Handling Functions"); [None] is a thrown [URIError]. *)

Definition jsstring := list Z.

Definition units_of_string (s : string) : jsstring :=
  map (fun c => Z.of_N (Ascii.N_of_ascii c)) (list_ascii_of_string s).

(** The ASCII word characters and [-.!~*'()]. *)
Definition uri_unescaped (c : Z) : bool :=
  ((65 <=? c) && (c <=? 90)) || ((97 <=? c) && (c <=? 122)) || ((48 <=? c) && (c <=? 57))
  || existsb (Z.eqb c) [95; 45; 46; 33; 126; 42; 39; 40; 41].

Definition is_high_surrogate (c : Z) : bool := (0xD800 <=? c) && (c <=? 0xDBFF).
Definition is_low_surrogate (c : Z) : bool := (0xDC00 <=? c) && (c <=? 0xDFFF).

(** The UTF-8 transformation of a code point. *)
Definition utf8_octets (cp : Z) : list Z :=
  if cp <? 0x80 then [cp]
  else if cp <? 0x800 then [0xC0 + cp / 64; 0x80 + cp mod 64]
  else if cp <? 0x10000 then
    [0xE0 + cp / 4096; 0x80 + (cp / 64) mod 64; 0x80 + cp mod 64]
  else [0xF0 + cp / 262144; 0x80 + (cp / 4096) mod 64;
        0x80 + (cp / 64) mod 64; 0x80 + cp mod 64].

(** An uppercase hexadecimal digit, [0 <= d < 16]. *)
Definition hex_digit (d : Z) : Z := if d <? 10 then 48 + d else 55 + d.

(** ["%" + StringPad(hex, 2, "0", start)] *)
Definition percent_escape (octet : Z) : jsstring :=
  [37; hex_digit (octet / 16); hex_digit (octet mod 16)].

Fixpoint encodeURIComponent (s : jsstring) : option jsstring :=
  match s with
  | [] => Some []
  | c :: rest =>
      if uri_unescaped c then
        option_map (cons c) (encodeURIComponent rest)
      else if is_high_surrogate c then
        match rest with
        | c2 :: rest' =>
            if is_low_surrogate c2 then
              let cp := (c - 0xD800) * 1024 + (c2 - 0xDC00) + 0x10000 in
              option_map (app (flat_map percent_escape (utf8_octets cp)))
                         (encodeURIComponent rest')
            else None
        | [] => None
        end
      else if is_low_surrogate c then None
      else option_map (app (flat_map percent_escape (utf8_octets c)))
                      (encodeURIComponent rest)
  end.

(** The value of a hexadecimal digit, upper or lower case. *)
Definition hex_value (c : Z) : option Z :=
  if (48 <=? c) && (c <=? 57) then Some (c - 48)
  else if (65 <=? c) && (c <=? 70) then Some (c - 55)
  else if (97 <=? c) && (c <=? 102) then Some (c - 87)
  else None.

(** [%XY] at the head of the input: ParseHexOctet, with the bound checks. *)
Definition read_escape (s : jsstring) : option (Z * jsstring) :=
  match s with
  | 37 :: h1 :: h2 :: rest =>
      match hex_value h1, hex_value h2 with
      | Some d1, Some d2 => Some (16 * d1 + d2, rest)
      | _, _ => None
      end
  | _ => None
  end.

(** The number of leading 1 bits of an octet, cut at 5. *)
Definition leading_ones (b : Z) : nat :=
  if b <? 0x80 then 0 else if b <? 0xC0 then 1 else if b <? 0xE0 then 2
  else if b <? 0xF0 then 3 else if b <? 0xF8 then 4 else 5.

(** [n - 1] continuation octets, each written [%XY]. *)
Fixpoint read_continuation (j : nat) (s : jsstring) : option (list Z * jsstring) :=
  match j with
  | O => Some ([], s)
  | S j' =>
      match read_escape s with
      | Some (b, rest) =>
          match read_continuation j' rest with
          | Some (bs, rest') => Some (b :: bs, rest')
          | None => None
          end
      | None => None
      end
  end.

(** A continuation octet has its two top bits [10]. *)
Definition continuation_octet (b : Z) : bool := (0x80 <=? b) && (b <=? 0xBF).

(** The code point of a valid UTF-8 sequence of 2 to 4 octets: shortest
    form, not a surrogate, at most [0x10FFFF]. *)
Definition utf8_code_point (octets : list Z) : option Z :=
  if forallb continuation_octet (tl octets) then
    match octets with
    | [b0; b1] =>
        let v := (b0 - 0xC0) * 64 + (b1 - 0x80) in
        if 0x80 <=? v then Some v else None
    | [b0; b1; b2] =>
        let v := (b0 - 0xE0) * 4096 + (b1 - 0x80) * 64 + (b2 - 0x80) in
        if (0x800 <=? v) && negb ((0xD800 <=? v) && (v <=? 0xDFFF)) then Some v else None
    | [b0; b1; b2; b3] =>
        let v := (b0 - 0xF0) * 262144 + (b1 - 0x80) * 4096 + (b2 - 0x80) * 64 + (b3 - 0x80) in
        if (0x10000 <=? v) && (v <=? 0x10FFFF) then Some v else None
    | _ => None
    end
  else None.

Definition UTF16EncodeCodePoint (cp : Z) : jsstring :=
  if cp <? 0x10000 then [cp]
  else [0xD800 + (cp - 0x10000) / 1024; 0xDC00 + (cp - 0x10000) mod 1024].

(** Step viii of Decode, after the first octet [b] was read. *)
Definition decode_octets (b : Z) (rest1 : jsstring) : option (jsstring * jsstring) :=
  match leading_ones b with
  | O => Some ([b], rest1)
  | n =>
      if (n =? 1)%nat || (4 <? n)%nat then None
      else
        match read_continuation (n - 1) rest1 with
        | None => None
        | Some (bs, rest2) =>
            match utf8_code_point (b :: bs) with
            | Some v => Some (UTF16EncodeCodePoint v, rest2)
            | None => None
            end
        end
  end.

(** One iteration of the loop of Decode: the code units it appends and the
    rest of the input. *)
Definition decode_step (s : jsstring) : option (jsstring * jsstring) :=
  match s with
  | [] => None
  | c :: rest =>
      if negb (c =? 37) then Some ([c], rest)
      else
        match read_escape s with
        | None => None
        | Some (b, rest1) => decode_octets b rest1
        end
  end.

(** Every step consumes at least one code unit, so [length s + 1] rounds
    of the loop are enough. *)
Fixpoint decode_loop (fuel : nat) (s : jsstring) : option jsstring :=
  match s with
  | [] => Some []
  | _ =>
      match fuel with
      | O => None
      | S fuel' =>
          match decode_step s with
          | Some (out, rest) => option_map (app out) (decode_loop fuel' rest)
          | None => None
          end
      end
  end.

Definition decodeURIComponent (s : jsstring) : option jsstring :=
  decode_loop (S (length s)) s.

(** ** [api.getDownloadFileUrl] (services/api.ts, lines 232-234) *)

Definition getDownloadFileUrl (API_BASE_URL : jsstring) (filename : jsstring)
  : option jsstring :=
  option_map (fun e => API_BASE_URL ++ units_of_string "/api/downloads/files/" ++ e)
             (encodeURIComponent filename).

(** The final path segment of a URL: what follows its last ['/']. *)
Fixpoint last_segment (url : jsstring) : jsstring :=
  match url with
  | [] => []
  | c :: r =>
      if existsb (Z.eqb 47) r then last_segment r
      else if c =? 47 then r else c :: r
  end.

(** A well-formed JS string: code units in range and no unpaired surrogate. *)
Fixpoint well_formed_utf16 (s : jsstring) : bool :=
  match s with
  | [] => true
  | c :: rest =>
      (0 <=? c) && (c <=? 0xFFFF) &&
      (if is_high_surrogate c then
         match rest with
         | c2 :: rest' => is_low_surrogate c2 && well_formed_utf16 rest'
         | [] => false
         end
       else negb (is_low_surrogate c) && well_formed_utf16 rest)
  end.

(** The characters [encodeURIComponent] may produce. *)
Definition uri_safe (c : Z) : Prop := uri_unescaped c = true \/ c = 37.

(** ** JS values rendered in template strings *)

Local Open Scope string_scope.

(** [${x}] for an optional string: [undefined] prints as ["undefined"]. *)
Definition js_str (o : option string) : string :=
  match o with Some s => s | None => "undefined" end.

(** [a || b] on strings. *)
Definition or_str (o : option string) (d : string) : string :=
  match o with Some s => if String.eqb s "" then d else s | None => d end.

Fixpoint join (sep : string) (l : list string) : string :=
  match l with
  | [] => ""
  | [x] => x
  | x :: r => x ++ sep ++ join sep r
  end.

(** The decimal digits of [n >= 0], in front of [acc]. *)
Fixpoint decimal_digits (fuel : nat) (n : Z) (acc : string) : string :=
  match fuel with
  | O => acc
  | S f =>
      let acc' := String (Ascii.ascii_of_nat (48 + Z.to_nat (n mod 10))%nat) acc in
      if (n <? 10)%Z then acc' else decimal_digits f (n / 10)%Z acc'
  end.

(** [${n}] for an integer number. *)
Definition Z_to_string (n : Z) : string :=
  if (n <? 0)%Z then "-" ++ decimal_digits (S (Z.to_nat (Z.log2 (- n)))) (- n)%Z ""
  else decimal_digits (S (Z.to_nat (Z.log2 n))) n "".

(** [Math.ceil(x / d)] for integers, [d > 0]. *)
Definition ceil_div (x d : Z) : Z := (- ((- x) / d))%Z.

(** ** Outcomes of an [async] API function *)

Inductive JsError :=
  | ErrorMsg (message : string)     (* [new Error(message)] *)
  | TypeError                       (* calling a property that is not a function *)
  | URIError
  | SyntaxError.                    (* [response.json()] on a body that is not JSON *)

Inductive Outcome (A : Type) :=
  | Returned (a : A)
  | Thrown (e : JsError).
Arguments Returned {A} a.
Arguments Thrown {A} e.

(** The JSON error body of a failed response, as [api.ts] reads it. *)
Record ErrorBody := {
  type : option string;
  message : option string;
  error : option string;
  suggestions : option (list string);
  retry_after : option Z;
  has_cookies : option bool   (* [error.cookie_status?.has_cookies] *)
}.

Record Response (A : Type) := {
  status : Z;
  ok_body : A;            (* [response.json()] when [response.ok] *)
  error_body : ErrorBody  (* [response.json()] otherwise *)
}.
Arguments status {A} r.
Arguments ok_body {A} r.
Arguments error_body {A} r.

Definition response_ok {A} (r : Response A) : bool :=
  ((200 <=? status r) && (status r <=? 299))%Z.

Definition type_is (e : ErrorBody) (t : string) : bool :=
  match type e with Some t' => String.eqb t' t | None => false end.

Definition throttle_message (minutes : Z) : string :=
  "YouTube is temporarily blocking requests. Please wait " ++ Z_to_string minutes
  ++ " minutes and try again.".

(** [Math.ceil((error.retry_after || 300) / 60)] *)
Definition retry_minutes (e : ErrorBody) : Z := ceil_div (or_num (retry_after e) 300%Z) 60%Z.

(** [api.getVideoInfo] (services/api.ts, lines 92-142), from the response
    of [POST /api/video-info]. *)
Definition getVideoInfo {A} (response : Response A) : Outcome A :=
  if response_ok response then Returned (ok_body response)
  else
    let e := error_body response in
    if type_is e "extraction_failure" then
      Thrown (ErrorMsg (js_str (message e) ++ " Suggestions: "
                        ++ js_str (option_map (join ", ") (suggestions e))))
    else if (status response =? 429)%Z && type_is e "bot_detection" then
      Thrown (ErrorMsg ("YouTube bot detection triggered. " ++
        (if negb (match has_cookies e with Some b => b | None => false end)
         then "Cookie authentication is required. Please check the deployment guide for cookie setup instructions."
         else "Your cookies may be expired. Please refresh them and redeploy.")))
    else if type_is e "video_unavailable" then
      Thrown (ErrorMsg (js_str (message e) ++ " " ++ js_str (option_map (join ", ") (suggestions e))))
    else if type_is e "age_restricted" then
      Thrown (ErrorMsg (js_str (message e) ++ " " ++ js_str (option_map (join ", ") (suggestions e))))
    else if (status response =? 429)%Z then
      Thrown (ErrorMsg (throttle_message (retry_minutes e)))
    else Thrown (ErrorMsg (or_str (error e) (or_str (message e) "Failed to fetch video info"))).

(** [api.startDirectDownload] (services/api.ts, lines 144-175), from the
    response of [POST /api/download-direct]. *)
Definition startDirectDownload {A} (response : Response A) : Outcome A :=
  if response_ok response then Returned (ok_body response)
  else
    let e := error_body response in
    if type_is e "extraction_failure" then
      Thrown (ErrorMsg (js_str (message e) ++ " Please try a different video."))
    else if (status response =? 429)%Z && type_is e "bot_detection" then
      Thrown (ErrorMsg "YouTube bot detection triggered. Please check cookie configuration in your deployment settings.")
    else if (status response =? 429)%Z then
      Thrown (ErrorMsg (throttle_message (retry_minutes e)))
    else Thrown (ErrorMsg (or_str (error e) (or_str (message e) "Failed to start download"))).

(** The answer of [fetch]: its status and its body, [None] when the body is
    not JSON. Each function of [api] calls [response.json()] once on either
    branch of [if (!response.ok)], so a body that is not JSON rejects with a
    [SyntaxError] whatever the status; otherwise the function runs on the
    parsed body, read as [A] on the [ok] branch and as [ErrorBody] on the
    other ([Response] above). *)
Definition with_json {A B} (st : Z) (body : option (A * ErrorBody))
  (f : Response A -> Outcome B) : Outcome B :=
  match body with
  | Some (a, e) => f {| status := st; ok_body := a; error_body := e |}
  | None => Thrown SyntaxError
  end.

(** [{...e, retry_after: ra}] *)
Definition with_retry_after (ra : option Z) (e : ErrorBody) : ErrorBody :=
  {| type := type e; message := message e; error := error e; suggestions := suggestions e;
     retry_after := ra; has_cookies := has_cookies e |}.

Local Close Scope string_scope.

(** ** The download buttons of the [Home] page in VideoInfoCard.tsx
    (the version at lines 2594-2780, which imports [api] from services/api) *)

Local Open Scope string_scope.

Module DirectData.
(** The JSON answer of [POST /api/download-direct]. *)
Record DirectData := {
  download_id : option string;
  title : option string;
  safe_title : option string;
  file_extension : option string
}.
End DirectData.
Abbreviation DirectData := DirectData.DirectData.

(** The code units [String.prototype.trim] strips (ECMA-262 WhiteSpace and
    LineTerminator): TAB, LF, VT, FF, CR, the space separators of Unicode
    category Zs (U+0020, U+00A0, U+1680, U+2000-U+200A, U+202F, U+205F,
    U+3000), U+2028, U+2029 and U+FEFF. *)
Definition js_whitespace (c : Z) : bool :=
  existsb (Z.eqb c) [9; 10; 11; 12; 13; 32; 160; 0x1680; 0x202F; 0x205F; 0x3000;
                     0x2028; 0x2029; 0xFEFF]%Z
  || ((0x2000 <=? c) && (c <=? 0x200A))%Z.

(** [!url.trim()]: the URL is empty or white space only. A URL here is a
    string of bytes, read as the code units [0..255] ([units_of_string]). *)
Definition is_blank (url : string) : bool :=
  forallb js_whitespace (units_of_string url).

(** A JSON request body, field by field. *)
Definition JsonBody := list (string * string).

(** What one click does: the requests sent, the statuses the new entry of
    [downloadTasks] is given (the last one by a 2 s timer), the hidden link
    that is clicked (href and download file name), and [setError]. *)
Record ClickEffects := {
  requests : list (string * JsonBody);
  task_statuses : list string;
  link : option (string * string);
  shown_error : option JsError
}.

Definition error_effects (reqs : list (string * JsonBody)) (e : JsError) : ClickEffects :=
  {| requests := reqs; task_statuses := []; link := None; shown_error := Some e |}.

(** [api.getDirectDownloadUrl] *)
Definition getDirectDownloadUrl (API_BASE_URL : string) (downloadId : string) : string :=
  API_BASE_URL ++ "/api/download-stream/" ++ downloadId.

(** [quality] as computed from the selected video format. *)
Definition direct_quality (selectedVideoFormat : option VideoFormat) : string :=
  match selectedVideoFormat with
  | Some f =>
      match VideoFormat.height f with
      | Some h => if (h =? 0)%Z then "auto" else "best[height<=" ++ Z_to_string h ++ "]"
      | None => "auto"
      end
  | None => "auto"
  end.

(** [startDirectDownload] of [Home] (lines 2622-2692); [server] answers the
    [POST /api/download-direct] that [api.startDirectDownload] sends. *)
Definition startDirectDownload_click (API_BASE_URL url : string)
  (selectedVideoFormat : option VideoFormat)
  (server : JsonBody -> Response DirectData) : ClickEffects :=
  if is_blank url then error_effects [] (ErrorMsg "Please enter a YouTube URL")
  else
    let quality := direct_quality selectedVideoFormat in
    let body := [("url", url); ("quality", quality)] in
    let reqs := [("/api/download-direct", body)] in
    match startDirectDownload (server body) with
    | Thrown e => error_effects reqs e
    | Returned data =>
        {| requests := reqs;
           task_statuses := ["preparing"; "downloading"; "completed"];
           link := Some (getDirectDownloadUrl API_BASE_URL (js_str (DirectData.download_id data)),
                         js_str (DirectData.safe_title data) ++ ".mp4");
           shown_error := None |}
    end.

(** The value of [api.startCustomFormatDownload]: a method takes the URL and
    the two optional format ids and gives the requests it sends and its
    outcome. *)
Definition CustomMethod :=
  string -> option string -> option string -> list (string * JsonBody) * Outcome DirectData.

(** The members of the [api] object of services/api.ts (lines 81-239). *)
Definition api_member_names : list string :=
  ["healthCheck"; "getVideoInfo"; "startDirectDownload"; "startServerDownload";
   "getDownloadStatus"; "getDownloadedFiles"; "getDownloadFileUrl"; "getDirectDownloadUrl"].

(** [api] has no member [startCustomFormatDownload]: reading it gives
    [undefined]. *)
Definition api_startCustomFormatDownload : option CustomMethod := None.

(** [startCustomFormatDownload] of [Home] (lines 2698-2772); calling an
    [undefined] member throws a [TypeError], caught by the [catch]. *)
Definition startCustomFormatDownload_click (api_method : option CustomMethod)
  (API_BASE_URL url : string)
  (selectedVideoFormat : option VideoFormat) (selectedAudioFormat : option AudioFormat)
  : ClickEffects :=
  if is_blank url then error_effects [] (ErrorMsg "Please enter a YouTube URL")
  else
    match selectedVideoFormat, selectedAudioFormat with
    | None, None => error_effects [] (ErrorMsg "Please select at least one format (video or audio)")
    | _, _ =>
        match api_method with
        | None => error_effects [] TypeError
        | Some m =>
            let '(reqs, outcome) :=
              m url (option_map VideoFormat.format_id selectedVideoFormat)
                    (option_map AudioFormat.format_id selectedAudioFormat) in
            match outcome with
            | Thrown e => error_effects reqs e
            | Returned data =>
                let extension :=
                  or_str (DirectData.file_extension data)
                    (match selectedAudioFormat, selectedVideoFormat with
                     | Some _, None => ".mp3"
                     | _, _ => ".mp4"
                     end) in
                {| requests := reqs;
                   task_statuses := ["preparing"; "downloading"; "completed"];
                   link := Some (getDirectDownloadUrl API_BASE_URL (js_str (DirectData.download_id data)),
                                 js_str (DirectData.safe_title data) ++ extension);
                   shown_error := None |}
            end
        end
    end.

Local Close Scope string_scope.

(** ** Status polling of [DownloadProgress] (DownloadProgress.tsx, lines 122-159) *)

Local Open Scope string_scope.

Module DownloadTask.
(** The fields of the [DownloadTask] interface that the component reads. *)
Record DownloadTask := {
  task_id : option string;
  download_id : option string;
  status : string;
  message : string;
  error : option string;
  downloaded_files : option (list string)
}.
End DownloadTask.
Abbreviation DownloadTask := DownloadTask.DownloadTask.

Definition is_terminal (s : string) : bool :=
  String.eqb s "completed" || String.eqb s "error".

(** The component's state, the requests of [api.getDownloadStatus] in
    flight (each holds the task as the server had it when it answered,
    oldest request first), and the server's task. [shown_statuses] is
    ghost state: the status of [currentTask] after each [setCurrentTask],
    starting with the initial one. *)
Record Poller := {
  prop_task : DownloadTask;
  currentTask : DownloadTask;
  isPolling : bool;
  downloadFiles : list string;
  in_flight : list DownloadTask;
  server_task : DownloadTask;
  shown_statuses : list string
}.

Definition with_in_flight (w : Poller) (l : list DownloadTask) : Poller :=
  {| prop_task := prop_task w; currentTask := currentTask w; isPolling := isPolling w;
     downloadFiles := downloadFiles w; in_flight := l; server_task := server_task w;
     shown_statuses := shown_statuses w |}.

Definition with_server_task (w : Poller) (t : DownloadTask) : Poller :=
  {| prop_task := prop_task w; currentTask := currentTask w; isPolling := isPolling w;
     downloadFiles := downloadFiles w; in_flight := in_flight w; server_task := t;
     shown_statuses := shown_statuses w |}.

(** [task.task_id || task.download_id] *)
Definition poll_task_id (t : DownloadTask) : option string :=
  if truthy_str (DownloadTask.task_id t) then DownloadTask.task_id t
  else DownloadTask.download_id t.

(** One run of [pollStatus] by the interval, up to its [await]. The effect
    is re-run whenever [isPolling] or [currentTask.status] change, so the
    closure sees the current values. *)
Definition pollStatus (w : Poller) : Poller :=
  if negb (isPolling w) || is_terminal (DownloadTask.status (currentTask w)) then w
  else if truthy_str (poll_task_id (prop_task w))
  then with_in_flight w (in_flight w ++ [server_task w])
  else w.

Fixpoint remove_nth {A} (k : nat) (l : list A) : list A :=
  match l, k with
  | [], _ => []
  | _ :: r, O => r
  | x :: r, S k' => x :: remove_nth k' r
  end.

(** The rest of [pollStatus] when the [k]-th request in flight resolves. *)
Definition resolve (k : nat) (w : Poller) : Poller :=
  match nth_error (in_flight w) k with
  | None => w
  | Some data =>
      {| prop_task := prop_task w;
         currentTask := data;
         isPolling := if is_terminal (DownloadTask.status data) then false else isPolling w;
         downloadFiles := match DownloadTask.downloaded_files data with
                          | Some fs => fs
                          | None => downloadFiles w
                          end;
         in_flight := remove_nth k (in_flight w);
         server_task := server_task w;
         shown_statuses := shown_statuses w ++ [DownloadTask.status data] |}
  end.

(** The [catch] of [pollStatus] when the [k]-th request in flight rejects. *)
Definition reject (k : nat) (w : Poller) : Poller :=
  match nth_error (in_flight w) k with
  | None => w
  | Some _ =>
      {| prop_task := prop_task w; currentTask := currentTask w; isPolling := false;
         downloadFiles := downloadFiles w; in_flight := remove_nth k (in_flight w);
         server_task := server_task w; shown_statuses := shown_statuses w |}
  end.

Inductive PollEvent :=
  | Tick                          (* the 2000 ms interval fires *)
  | ServerSet (t : DownloadTask)  (* the server updates its task *)
  | Resolve (k : nat)
  | Reject (k : nat).

Definition poll_step (w : Poller) (ev : PollEvent) : Poller :=
  match ev with
  | Tick => pollStatus w
  | ServerSet t => with_server_task w t
  | Resolve k => resolve k w
  | Reject k => reject k w
  end.

Definition run_poller (w : Poller) (evs : list PollEvent) : Poller :=
  fold_left poll_step evs w.

(** A task with the given status, as the server reports it. *)
Definition server_snapshot (st : string) : DownloadTask :=
  {| DownloadTask.task_id := Some "t1"; DownloadTask.download_id := None;
     DownloadTask.status := st; DownloadTask.message := st;
     DownloadTask.error := None; DownloadTask.downloaded_files := None |}.

(** A component mounted for a task in [preparing] while the server is
    already [downloading]. *)
Definition poller_start : Poller :=
  {| prop_task := server_snapshot "preparing"; currentTask := server_snapshot "preparing";
     isPolling := true; downloadFiles := []; in_flight := [];
     server_task := server_snapshot "downloading"; shown_statuses := ["preparing"] |}.

(** Two ticks 2 s apart, the server finishing in between, and the answers
    arriving in the opposite order. *)
Definition late_answer_trace : list PollEvent :=
  [Tick; ServerSet (server_snapshot "completed"); Tick; Resolve 1; Resolve 0].

Local Close Scope string_scope.

(** ** The other request functions of [api] (services/api.ts) *)

Local Open Scope string_scope.

(** [api.startServerDownload] (lines 177-208), from the response of
    [POST /api/download]. *)
Definition startServerDownload {A} (response : Response A) : Outcome A :=
  if response_ok response then Returned (ok_body response)
  else
    let e := error_body response in
    if type_is e "extraction_failure" then
      Thrown (ErrorMsg (js_str (message e) ++ " Please try a different video."))
    else if (status response =? 429)%Z && type_is e "bot_detection" then
      Thrown (ErrorMsg "YouTube bot detection triggered. Please check cookie configuration in your deployment settings.")
    else if (status response =? 429)%Z then
      Thrown (ErrorMsg (throttle_message (retry_minutes e)))
    else Thrown (ErrorMsg (or_str (error e) (or_str (message e) "Failed to start download"))).

(** [api.getDownloadStatus] (lines 210-219), from the response of
    [GET /api/download-status/:id]. *)
Definition getDownloadStatus {A} (response : Response A) : Outcome A :=
  if response_ok response then Returned (ok_body response)
  else Thrown (ErrorMsg (or_str (error (error_body response)) "Failed to get download status")).

(** [api.getDownloadedFiles] (lines 221-230), from the response of
    [GET /api/downloads/files]. *)
Definition getDownloadedFiles {A} (response : Response A) : Outcome A :=
  if response_ok response then Returned (ok_body response)
  else Thrown (ErrorMsg (or_str (error (error_body response)) "Failed to get downloaded files")).

Local Close Scope string_scope.

(** ** Display helpers of the first [VideoInfoCard] (lines 83-126) *)

Local Open Scope string_scope.

(** [n.toString().padStart(2, "0")] *)
Definition pad_start2 (s : string) : string :=
  match String.length s with
  | O => "00"
  | 1%nat => "0" ++ s
  | _ => s
  end.

(** [formatDuration] (lines 83-94) for an integer number of seconds:
    [Math.floor(x / y)] is [Z.div] and [%] is the truncated remainder
    [Z.rem]. *)
Definition formatDuration (seconds : Z) : string :=
  let hours := (seconds / 3600)%Z in
  let minutes := (Z.rem seconds 3600 / 60)%Z in
  let secs := Z.rem seconds 60 in
  if (hours >? 0)%Z then
    Z_to_string hours ++ ":" ++ pad_start2 (Z_to_string minutes) ++ ":"
    ++ pad_start2 (Z_to_string secs)
  else Z_to_string minutes ++ ":" ++ pad_start2 (Z_to_string secs).

Local Close Scope string_scope.

(** [s.substring(start, end)] for [0 <= start <= end]: indices past the
    end are clamped to the length. *)
Definition js_substring (s : jsstring) (start end_ : nat) : jsstring :=
  firstn (end_ - start) (skipn start s).

(** [formatDate] (lines 105-111); an empty string is falsy. *)
Definition formatDate (dateString : jsstring) : jsstring :=
  match dateString with
  | [] => units_of_string "Unknown"
  | _ =>
      let year := js_substring dateString 0 4 in
      let month := js_substring dateString 4 6 in
      let day := js_substring dateString 6 8 in
      year ++ [45] ++ month ++ [45] ++ day
  end.

Local Open Scope string_scope.

(** [${x}] for an optional number. *)
Definition js_num (o : option Z) : string :=
  match o with Some z => Z_to_string z | None => "undefined" end.

(** [getQualityLabel] (lines 120-126). *)
Definition getQualityLabel (format : VideoFormat) : string :=
  if truthy_num (VideoFormat.height format) then
    js_num (VideoFormat.height format) ++ "p"
    ++ (if truthy_num (VideoFormat.fps format)
        then "@" ++ js_num (VideoFormat.fps format) ++ "fps" else "")
  else
    js_num (VideoFormat.width format) ++ "x"
    ++ (if truthy_num (VideoFormat.height format)
        then js_num (VideoFormat.height format) else "auto").

Local Close Scope string_scope.

(** ** Plain objects used as dictionaries

    The groupings reduce into [{}], a plain object, whose keys include the
    properties inherited from [Object.prototype]: [__proto__] reads as
    [Object.prototype] itself, and the others are functions, listed here
    with their [length]. *)

Local Open Scope string_scope.

Definition object_prototype_functions : list (string * Z) :=
  [("constructor", 1); ("__defineGetter__", 2); ("__defineSetter__", 2);
   ("hasOwnProperty", 1); ("__lookupGetter__", 1); ("__lookupSetter__", 1);
   ("isPrototypeOf", 1); ("propertyIsEnumerable", 1); ("toString", 0);
   ("valueOf", 0); ("toLocaleString", 0)]%Z.

Definition is_proto_key (k : string) : bool :=
  String.eqb k "__proto__" || existsb (fun '(n, _) => String.eqb k n) object_prototype_functions.

(** The value of [obj[k]]. *)
Inductive PropValue (V : Type) :=
  | OwnValue (v : V)             (* an own property *)
  | ProtoFunction (length : Z)   (* a function inherited from [Object.prototype] *)
  | ProtoObject                  (* [obj.__proto__], that is [Object.prototype] *)
  | Undefined.
Arguments OwnValue {V} v.
Arguments ProtoFunction {V} length.
Arguments ProtoObject {V}.
Arguments Undefined {V}.

(** [obj[k]] on an object built from [{}] whose own properties are [d]. *)
Definition js_get {A} (k : string) (d : list (string * list A)) : PropValue (list A) :=
  match lookup k d with
  | Some v => OwnValue v
  | None =>
      if String.eqb k "__proto__" then ProtoObject
      else match find (fun '(n, _) => String.eqb k n) object_prototype_functions with
           | Some (_, len) => ProtoFunction len
           | None => Undefined
           end
  end.

(** [if (!acc[k]) acc[k] = []; acc[k].push(f)]: an array is truthy, even
    empty; an inherited property is truthy too, and has no [push]. *)
Definition js_push_group {A} (acc : list (string * list A)) (k : string) (f : A)
  : Outcome (list (string * list A)) :=
  match js_get k acc with
  | OwnValue _ | Undefined => Returned (push_group acc k f)
  | ProtoFunction _ | ProtoObject => Thrown TypeError
  end.

Fixpoint js_group_from {A} (key : A -> string) (acc : list (string * list A)) (l : list A)
  : Outcome (list (string * list A)) :=
  match l with
  | [] => Returned acc
  | f :: r =>
      match js_push_group acc (key f) f with
      | Returned acc' => js_group_from key acc' r
      | Thrown e => Thrown e
      end
  end.

(** [l.reduce((acc, f) => { ... }, {})] as written at lines 195-212 and
    1144-1152. *)
Definition js_group_by {A} (key : A -> string) (l : list A) : Outcome (list (string * list A)) :=
  js_group_from key [] l.

(** [getSelectedVideoFormatFromGroup] / [getSelectedAudioFormatFromGroup]
    (lines 214-244), one body for both. [formats] is [grouped[key]]:
    [null] when it is missing ([!formats]) or has [length] 0, else the
    group's format with the selected [format_id], else the group's first
    one. [selected?.format_id] is [undefined] when nothing is selected, and
    no [format_id] string equals it. An inherited function with a non-zero
    [length], or [Object.prototype] (whose [length] is [undefined]), has no
    [find]: calling it throws. *)
Definition getSelectedFormatFromGroup {A} (format_id : A -> string)
  (grouped : list (string * list A)) (selected : option A) (key : string) : Outcome (option A) :=
  match js_get key grouped with
  | Undefined | OwnValue [] => Returned None
  | OwnValue ((f0 :: _) as formats) =>
      Returned (match find (fun f => match selected with
                                     | Some s => String.eqb (format_id f) (format_id s)
                                     | None => false
                                     end) formats with
                | Some f => Some f
                | None => Some f0
                end)
  | ProtoFunction len => if (len =? 0)%Z then Returned None else Thrown TypeError
  | ProtoObject => Thrown TypeError
  end.

Definition getSelectedVideoFormatFromGroup (getQualityLabel : VideoFormat -> string)
  (video_formats : list VideoFormat) (selectedVideoFormat : option VideoFormat)
  (quality : string) : Outcome (option VideoFormat) :=
  getSelectedFormatFromGroup VideoFormat.format_id
    (groupedVideoFormats getQualityLabel video_formats) selectedVideoFormat quality.

Definition getSelectedAudioFormatFromGroup (getLanguageDisplay : AudioFormat -> string)
  (audio_formats : list AudioFormat) (selectedAudioFormat : option AudioFormat)
  (language : string) : Outcome (option AudioFormat) :=
  getSelectedFormatFromGroup AudioFormat.format_id
    (groupedAudioFormats getLanguageDisplay audio_formats) selectedAudioFormat language.

Local Close Scope string_scope.

(** ** [ProgressBar] (DownloadProgress.tsx, lines 82-120) *)

Module ProgressBar.
(** Progress values as exact rationals. A double addition of a
    non-negative number never decreases the sum, and [Math.min] is exact,
    so the bounds proved below hold for the doubles too. *)
Record ProgressBar := {
  status : string;       (* the [status] prop the effect last ran for *)
  progress : Q;
  interval_on : bool     (* the 500 ms interval is set *)
}.

(** The body of the effect of [[status]]; its cleanup clears the interval
    of the previous run. *)
Definition run_effect (st : string) (b : ProgressBar) : ProgressBar :=
  {| status := st;
     progress :=
       if String.eqb st "preparing" then 10
       else if String.eqb st "downloading" then 30
       else if String.eqb st "completed" then 100
       else if String.eqb st "error" then 0
       else progress b;
     interval_on := String.eqb st "downloading" |}.

(** A new [status] prop: the effect runs only when it changed. *)
Definition set_status (st : string) (b : ProgressBar) : ProgressBar :=
  if String.eqb st (status b) then b else run_effect st b.

(** One firing of the interval, with [Math.random()] returning [r]. *)
Definition tick (r : Q) (b : ProgressBar) : ProgressBar :=
  if interval_on b then
    {| status := status b; progress := Qmin (progress b + r * 10) 90;
       interval_on := interval_on b |}
  else b.

(** Mounting: [useState(0)], then the effect's first run. *)
Definition mount (st : string) : ProgressBar :=
  run_effect st {| status := st; progress := 0; interval_on := false |}.

Inductive Event :=
  | NewStatus (st : string)
  | Tick (r : Q).        (* the interval fires; [Math.random()] gave [r] *)

Definition step (b : ProgressBar) (ev : Event) : ProgressBar :=
  match ev with
  | NewStatus st => set_status st b
  | Tick r => tick r b
  end.

(** The progress values shown after each event. *)
Fixpoint shown (b : ProgressBar) (evs : list Event) : list Q :=
  match evs with
  | [] => []
  | ev :: rest => let b' := step b ev in progress b' :: shown b' rest
  end.
End ProgressBar.

(** ** Reading a decimal numeral back (used to show that labels built
    with [Z_to_string] determine the numbers in them) *)

Definition is_digit (c : Ascii.ascii) : bool :=
  (48 <=? Ascii.nat_of_ascii c)%nat && (Ascii.nat_of_ascii c <=? 57)%nat.

(** The value of the longest prefix of decimal digits, after [a]. *)
Fixpoint digits_prefix (s : string) (a : Z) : Z :=
  match s with
  | EmptyString => a
  | String c r =>
      if is_digit c then digits_prefix r (a * 10 + Z.of_nat (Ascii.nat_of_ascii c - 48))
      else a
  end.

(** The integer a string starts with, with an optional minus sign. *)
Definition leading_int (s : string) : Z :=
  match s with
  | String c r => if Ascii.eqb c "-"%char then - digits_prefix r 0 else digits_prefix s 0
  | EmptyString => 0
  end.

Definition starts_without_digit (s : string) : Prop :=
  match s with String c _ => is_digit c = false | EmptyString => True end.

(** What it means for a dictionary of groups to split [l] by [key]: the
    groups together hold the elements of [l], each once; the keys are
    distinct; no group is empty and each holds elements of its key only;
    every element is in the group of its key. *)
Definition partitions {A} (key : A -> string) (l : list A) (d : list (string * list A)) : Prop :=
  Permutation (concat (map snd d)) l /\
  NoDup (map fst d) /\
  (forall k g, lookup k d = Some g -> g <> [] /\ Forall (fun f => key f = k) g) /\
  (forall f, In f l -> exists g, lookup (key f) d = Some g /\ In f g).

(** The two decimal digits of [0 <= d < 100]. *)
Definition two_digits (d : Z) : string :=
  String (ascii_of_nat (48 + Z.to_nat (d / 10))) (String (ascii_of_nat (48 + Z.to_nat (d mod 10))) EmptyString).

(** ** The [downloadTasks] list of [Home] in app/page.tsx (lines 88-159) *)

Local Open Scope string_scope.

(** [a === b] on a field that may be [undefined]. *)
Definition opt_str_eqb (a b : option string) : bool :=
  match a, b with
  | Some x, Some y => String.eqb x y
  | None, None => true
  | _, _ => false
  end.

(** [{...task, status, message}] *)
Definition with_status (st msg : string) (task : DownloadTask) : DownloadTask :=
  {| DownloadTask.task_id := DownloadTask.task_id task;
     DownloadTask.download_id := DownloadTask.download_id task;
     DownloadTask.status := st; DownloadTask.message := msg;
     DownloadTask.error := DownloadTask.error task;
     DownloadTask.downloaded_files := DownloadTask.downloaded_files task |}.

(** [prev.map(task => task.task_id === id ? {...task, status, message} : task)] *)
Definition set_task (id : option string) (st msg : string) (prev : list DownloadTask)
  : list DownloadTask :=
  map (fun task => if opt_str_eqb (DownloadTask.task_id task) id then with_status st msg task else task)
      prev.

Definition directTask (data : DirectData) : DownloadTask :=
  {| DownloadTask.task_id := DirectData.download_id data; DownloadTask.download_id := None;
     DownloadTask.status := "preparing";
     DownloadTask.message := "Preparing download: " ++ js_str (DirectData.title data);
     DownloadTask.error := None; DownloadTask.downloaded_files := None |}.

(** The state [startDirectDownload] of [Home] leaves: the error shown, the
    task list right after the click and the task list after the 2 s timer. *)
Record HomeResult := {
  home_error : string;
  tasks_after_click : list DownloadTask;
  tasks_after_timer : list DownloadTask
}.

Definition home_startDirectDownload (url : string) (response : Response DirectData)
  (prev : list DownloadTask) : HomeResult :=
  if is_blank url then
    {| home_error := "Please enter a YouTube URL"; tasks_after_click := prev; tasks_after_timer := prev |}
  else if negb (response_ok response) then
    {| home_error := or_str (error (error_body response)) "Failed to prepare download";
       tasks_after_click := prev; tasks_after_timer := prev |}
  else
    let data := ok_body response in
    let clicked := set_task (DirectData.download_id data) "downloading" "Downloading to your device..."
                            (directTask data :: prev) in
    {| home_error := ""; tasks_after_click := clicked;
       tasks_after_timer := set_task (DirectData.download_id data) "completed"
                              ("Download started: " ++ js_str (DirectData.title data)) clicked |}.

Local Close Scope string_scope.

(** ** [formatFileSize] (VideoInfoCard.tsx, lines 113-118) *)

Local Open Scope string_scope.

(** The unit roundoff [2^-52] of doubles: a bound on the relative error
    of one rounded operation, and of a logarithm faithful to one ulp. *)
Definition unit_roundoff : R := (/ 4503599627370496)%R.

Section FormatFileSize.

(** [Math.log]: ECMA-262 leaves its precision to the engine; [None]
    stands for NaN. *)
Variable Math_log : R -> option R.
(** The rounded double division [a / c]. *)
Variable fdiv : R -> R -> R.
(** [(bytes / Math.pow(1024, i)).toFixed(1)] for the byte count and the
    unit index ([None] for NaN); only the unit is studied here. *)
Variable fixed_text : Z -> option Z -> string.

Definition sizes : list string := ["B"; "KB"; "MB"; "GB"].

(** [Math.floor(Math.log(bytes) / Math.log(1024))]; NaN stays NaN. *)
Definition unit_index (bytes : Z) : option Z :=
  match Math_log (IZR bytes), Math_log 1024%R with
  | Some lb, Some lk => Some (Int_part (fdiv lb lk))
  | _, _ => None
  end.

(** [sizes[i]] inside a template literal: off the array it is [undefined],
    printed as "undefined". *)
Definition unit_name (i : option Z) : string :=
  match i with
  | Some i => if ((0 <=? i) && (i <? 4))%Z then nth (Z.to_nat i) sizes "undefined" else "undefined"
  | None => "undefined"
  end.

Definition formatFileSize (bytes : option Z) : string :=
  match bytes with
  | None => "Unknown"
  | Some b =>
      if (b =? 0)%Z then "Unknown"
      else fixed_text b (unit_index b) ++ " " ++ unit_name (unit_index b)
  end.

End FormatFileSize.

(** A logarithm exact on the positive reals, NaN below 0. *)
Definition exact_log (x : R) : option R :=
  if Rlt_dec x 0 then None else Some (ln x).

(** A logarithm exact except at [2^40], where it is one unit roundoff low. *)
Definition skewed_log (x : R) : option R :=
  if Rlt_dec x 0 then None
  else if Req_dec_T x 1099511627776 then Some ((1 - unit_roundoff) * ln x)%R
  else Some (ln x).

Local Close Scope string_scope.

(** ** Sample inputs *)

Local Open Scope string_scope.

Definition mk_video (id : string) (w h tbr : Z) : VideoFormat :=
  {| VideoFormat.format_id := id; VideoFormat.width := Some w; VideoFormat.height := Some h;
     VideoFormat.fps := Some 30%Z; VideoFormat.vcodec := Some "avc1";
     VideoFormat.filesize := None; VideoFormat.tbr := Some tbr |}.

Definition mk_audio (id codec : string) (abr : Z) (lang : string) : AudioFormat :=
  {| AudioFormat.format_id := id; AudioFormat.acodec := Some codec; AudioFormat.abr := Some abr;
     AudioFormat.filesize := None; AudioFormat.tbr := Some abr;
     AudioFormat.language := Some lang; AudioFormat.language_preference := None |}.

Definition video_720_high : VideoFormat := mk_video "22" 1280 720 2000.
Definition video_720_low : VideoFormat := mk_video "136" 1280 720 1500.

(** A storyboard entry: no dimensions. *)
Definition storyboard : VideoFormat :=
  {| VideoFormat.format_id := "sb0"; VideoFormat.width := None; VideoFormat.height := None;
     VideoFormat.fps := None; VideoFormat.vcodec := Some "none";
     VideoFormat.filesize := None; VideoFormat.tbr := None |}.

Definition sample_video_formats : list VideoFormat :=
  [video_720_low; storyboard; mk_video "137" 1920 1080 4000; video_720_high].

Definition audio_en_high : AudioFormat := mk_audio "251" "opus" 160 "en".
Definition audio_en_low : AudioFormat := mk_audio "249" "opus" 50 "en".

(** A language tag that names a property of [Object.prototype]. *)
Definition audio_constructor : AudioFormat := mk_audio "x" "opus" 64 "constructor".

Definition sample_audio_formats : list AudioFormat :=
  [audio_en_low; mk_audio "sb-a" "none" 0 "en"; mk_audio "140-de" "mp4a" 128 "de"; audio_en_high].

Definition sample_language (f : AudioFormat) : string := language_key f.

Definition sample_base_url : string := "http://localhost:5000".
Definition sample_url : string := "https://www.youtube.com/watch?v=dQw4w9WgXcQ".

Definition error_body_of (t : option string) (retry : option Z) : ErrorBody :=
  {| type := t; message := Some "Too many requests"; error := None;
     suggestions := None; retry_after := retry; has_cookies := None |}.

(** A plain 429 with [retry_after: 90]. *)
Definition throttled_response : Response unit :=
  {| status := 429%Z; ok_body := tt; error_body := error_body_of None (Some 90%Z) |}.

(** A 429 for bot detection, with [retry_after: 120]. *)
Definition bot_detection_response : Response unit :=
  {| status := 429%Z; ok_body := tt;
     error_body := error_body_of (Some "bot_detection") (Some 120%Z) |}.

(** A preparation answer for a WebM file. *)
Definition webm_response : Response DirectData :=
  {| status := 200%Z;
     ok_body := {| DirectData.download_id := Some "d42"; DirectData.title := Some "Sample Video";
                   DirectData.safe_title := Some "Sample_Video";
                   DirectData.file_extension := Some ".webm" |};
     error_body := error_body_of None None |}.

Definition audio_mp3 : AudioFormat := mk_audio "140" "mp4a" 128 "en".

(** A component whose task has completed. *)
Definition poller_done : Poller :=
  {| prop_task := server_snapshot "preparing"; currentTask := server_snapshot "completed";
     isPolling := false; downloadFiles := ["video.mp4"]; in_flight := [];
     server_task := server_snapshot "completed";
     shown_statuses := ["preparing"; "completed"] |}.

Local Close Scope string_scope.

(** ** Facts about the sort and the grouping *)


Section JsSortFacts.
Context {A : Type} (cmp : A -> A -> Z).
Hypothesis cmp_antisym : forall a b, cmp b a = - cmp a b.

Let R (a b : A) : Prop := cmp a b <= 0.

Lemma sort_insert_perm (x : A) (l : list A) : Permutation (sort_insert cmp x l) (x :: l).
Proof.
  induction l as [|y l IH]; simpl; [reflexivity|].
  destruct (cmp x y <=? 0); [reflexivity|].
  rewrite IH. apply perm_swap.
Qed.

Lemma js_sort_perm (l : list A) : Permutation (js_sort cmp l) l.
Proof.
  induction l as [|x l IH]; simpl; [reflexivity|].
  rewrite sort_insert_perm, IH. reflexivity.
Qed.

Lemma sort_insert_hd (x y : A) (l : list A) :
  HdRel R y l -> R y x -> HdRel R y (sort_insert cmp x l).
Proof.
  intros Hl Hyx. destruct l as [|z l]; simpl.
  - constructor; exact Hyx.
  - destruct (cmp x z <=? 0); constructor; [exact Hyx|].
    inversion Hl; assumption.
Qed.

Lemma sort_insert_sorted (x : A) (l : list A) :
  Sorted R l -> Sorted R (sort_insert cmp x l).
Proof.
  induction l as [|y l IH]; intros Hs; simpl.
  - repeat constructor.
  - destruct (cmp x y <=? 0) eqn:Hc.
    + constructor; [exact Hs|]. constructor. unfold R. lia.
    + inversion Hs as [|? ? Hs' Hhd]; subst.
      constructor; [exact (IH Hs')|].
      apply sort_insert_hd; [exact Hhd|].
      unfold R. rewrite cmp_antisym. lia.
Qed.

Lemma js_sort_sorted (l : list A) : Sorted R (js_sort cmp l).
Proof.
  induction l as [|x l IH]; simpl; [constructor|].
  apply sort_insert_sorted, IH.
Qed.
End JsSortFacts.

Lemma Sorted_adjacent {A} (R : A -> A -> Prop) (l : list A) (i : nat) (a b : A) :
  Sorted R l -> adjacent l i a b -> R a b.
Proof.
  revert i. induction l as [|x l IH]; intros i Hs [Ha Hb].
  - destruct i; discriminate.
  - inversion Hs as [|? ? Hs' Hhd]; subst.
    destruct i as [|i]; simpl in Ha, Hb.
    + injection Ha as <-. destruct l as [|y l]; [discriminate|].
      simpl in Hb. injection Hb as <-. inversion Hhd; assumption.
    + exact (IH i Hs' (conj Ha Hb)).
Qed.

Lemma StronglySorted_filter {A} (R : A -> A -> Prop) (p : A -> bool) (l : list A) :
  StronglySorted R l -> StronglySorted R (filter p l).
Proof.
  induction l as [|x l IH]; intros Hs; simpl; [constructor|].
  inversion Hs as [|? ? Hs' Hall]; subst.
  destruct (p x); [|exact (IH Hs')].
  constructor; [exact (IH Hs')|].
  apply Forall_forall. intros y Hy. apply filter_In in Hy.
  exact (proj1 (Forall_forall _ _) Hall y (proj1 Hy)).
Qed.

Section GroupingFacts.
Context {A : Type} (key : A -> string).

Lemma lookup_push_group (acc : list (string * list A)) (k k' : string) (f : A) :
  lookup k (push_group acc k' f)
  = if String.eqb k k' then Some (group_of k acc ++ [f]) else lookup k acc.
Proof.
  unfold group_of. induction acc as [|[k0 fs] r IH]; simpl.
  - destruct (String.eqb k k'); reflexivity.
  - destruct (String.eqb k' k0) eqn:E1.
    + apply String.eqb_eq in E1; subst k0. simpl.
      destruct (String.eqb k k'); reflexivity.
    + simpl. destruct (String.eqb k k0) eqn:E2.
      * apply String.eqb_eq in E2; subst k0.
        destruct (String.eqb k k') eqn:E3; [|reflexivity].
        apply String.eqb_eq in E3; subst k'. rewrite String.eqb_refl in E1. discriminate.
      * exact IH.
Qed.

Lemma lookup_fold_group (k : string) (l : list A) (acc : list (string * list A)) (g : list A) :
  lookup k (fold_left (fun acc f => push_group acc (key f) f) l acc) = Some g ->
  g = group_of k acc ++ filter (fun x => String.eqb (key x) k) l.
Proof.
  revert acc. induction l as [|x l IH]; intros acc H; simpl in *.
  - unfold group_of. rewrite H, app_nil_r. reflexivity.
  - rewrite (IH _ H). unfold group_of at 1. rewrite lookup_push_group.
    rewrite (String.eqb_sym (key x) k).
    destruct (String.eqb k (key x)).
    + rewrite <- app_assoc. reflexivity.
    + unfold group_of. destruct (lookup k acc); reflexivity.
Qed.

Lemma lookup_group_by (k : string) (l : list A) (g : list A) :
  lookup k (group_by key l) = Some g -> g = filter (fun x => String.eqb (key x) k) l.
Proof. intros H. exact (lookup_fold_group k l [] g H). Qed.
End GroupingFacts.

Lemma lookup_map_groups {A} (h : list A -> list A) (k : string) (d : list (string * list A)) (g : list A) :
  lookup k (map (fun '(kk, fs) => (kk, h fs)) d) = Some g ->
  exists g0, lookup k d = Some g0 /\ g = h g0.
Proof.
  induction d as [|[k0 fs] r IH]; simpl; [discriminate|].
  destruct (String.eqb k k0).
  - intros H. injection H as <-. eauto.
  - exact IH.
Qed.

Lemma Sorted_weaken {A} (R R' : A -> A -> Prop) (l : list A) :
  (forall a b, R a b -> R' a b) -> Sorted R l -> Sorted R' l.
Proof.
  intros Himp Hs. induction Hs as [|x l Hs IH Hhd]; constructor; [exact IH|].
  destruct Hhd; constructor. apply Himp; assumption.
Qed.

Lemma Sorted_filter_ge {A} (m : A -> Z) (p : A -> bool) (l : list A) :
  Sorted (fun a b => m a >= m b) l -> Sorted (fun a b => m a >= m b) (filter p l).
Proof.
  intros Hs. apply StronglySorted_Sorted, StronglySorted_filter.
  apply Sorted_StronglySorted; [|exact Hs].
  intros x y z; lia.
Qed.

Lemma adjacent_In {A} (l : list A) (i : nat) (a b : A) :
  adjacent l i a b -> In a l /\ In b l.
Proof. intros [Ha Hb]. split; eapply nth_error_In; eassumption. Qed.

Lemma video_cmp_antisym (a b : VideoFormat) : video_cmp b a = - video_cmp a b.
Proof.
  unfold video_cmp.
  destruct (or_num (VideoFormat.height a) 0 - or_num (VideoFormat.height b) 0 =? 0) eqn:E1;
  destruct (or_num (VideoFormat.height b) 0 - or_num (VideoFormat.height a) 0 =? 0) eqn:E2;
  simpl; lia.
Qed.

Lemma audio_cmp_antisym (a b : AudioFormat) : audio_cmp b a = - audio_cmp a b.
Proof.
  unfold audio_cmp.
  destruct (audio_bitrate a - audio_bitrate b =? 0) eqn:E1;
  destruct (audio_bitrate b - audio_bitrate a =? 0) eqn:E2;
  simpl; lia.
Qed.

Lemma abr_cmp_antisym (a b : AudioFormat) : abr_cmp b a = - abr_cmp a b.
Proof. unfold abr_cmp. lia. Qed.

Lemma In_sortedVideoFormats (video_formats : list VideoFormat) (f : VideoFormat) :
  In f (sortedVideoFormats video_formats) -> In f video_formats /\ video_usable f = true.
Proof.
  unfold sortedVideoFormats. intros H.
  apply (Permutation_in _ (js_sort_perm video_cmp _)) in H.
  apply filter_In in H. exact H.
Qed.

Lemma In_sortedAudioFormats (audio_formats : list AudioFormat) (f : AudioFormat) :
  In f (sortedAudioFormats audio_formats) -> In f audio_formats /\ audio_usable f = true.
Proof.
  unfold sortedAudioFormats. intros H.
  apply (Permutation_in _ (js_sort_perm audio_cmp _)) in H.
  apply filter_In in H. exact H.
Qed.

Lemma video_usable_spec (f : VideoFormat) :
  video_usable f = true ->
  exists h w, VideoFormat.height f = Some h /\ h <> 0 /\ VideoFormat.width f = Some w /\ w <> 0.
Proof.
  unfold video_usable, truthy_num. intros H. apply andb_true_iff in H as [H1 H2].
  destruct (VideoFormat.height f) as [h|], (VideoFormat.width f) as [w|];
    try discriminate.
  apply negb_true_iff, Z.eqb_neq in H1. apply negb_true_iff, Z.eqb_neq in H2.
  exists h, w. repeat split; assumption.
Qed.

Lemma audio_usable_spec (f : AudioFormat) :
  audio_usable f = true ->
  exists c, AudioFormat.acodec f = Some c /\ c <> ""%string /\ c <> "none"%string.
Proof.
  unfold audio_usable, truthy_str.
  destruct (AudioFormat.acodec f) as [c|]; simpl; [|discriminate].
  intros H. apply andb_true_iff in H as [H1 H2].
  apply negb_true_iff, String.eqb_neq in H1. apply negb_true_iff, String.eqb_neq in H2.
  eauto.
Qed.

Lemma In_group {A} (key : A -> string) (l : list A) (k : string) (g : list A) (f : A) :
  lookup k (group_by key l) = Some g -> In f g -> In f l.
Proof.
  intros Hg Hf. rewrite (lookup_group_by key k l g Hg) in Hf.
  apply filter_In in Hf. exact (proj1 Hf).
Qed.

(** ** Claims about the format lists *)

(** C2. Adjacent entries of [sortedVideoFormats] are ordered by height
    (the quality), strictly descending, or, at equal height, by bitrate
    [tbr || 0] descending; every listed entry has a height. *)
Theorem sortedVideoFormats_quality_then_bitrate
  (video_formats : list VideoFormat) (i : nat) (a b : VideoFormat) :
  adjacent (sortedVideoFormats video_formats) i a b ->
  exists ha hb, VideoFormat.height a = Some ha /\ VideoFormat.height b = Some hb /\
    (ha > hb \/ (ha = hb /\ or_num (VideoFormat.tbr a) 0 >= or_num (VideoFormat.tbr b) 0)).
Proof.
  intros Hadj.
  pose proof (Sorted_adjacent _ _ _ _ _ (js_sort_sorted video_cmp video_cmp_antisym _) Hadj) as Hab.
  destruct (adjacent_In _ _ _ _ Hadj) as [Ha Hb].
  destruct (video_usable_spec a (proj2 (In_sortedVideoFormats _ _ Ha))) as (ha & wa & Hha & Hha0 & _).
  destruct (video_usable_spec b (proj2 (In_sortedVideoFormats _ _ Hb))) as (hb & wb & Hhb & Hhb0 & _).
  exists ha, hb. split; [exact Hha|]. split; [exact Hhb|].
  simpl in Hab. unfold video_cmp in Hab. rewrite Hha, Hhb in Hab. simpl in Hab.
  apply Z.eqb_neq in Hha0, Hhb0. rewrite Hha0, Hhb0 in Hab.
  destruct (hb - ha =? 0) eqn:E; simpl in Hab.
  - apply Z.eqb_eq in E. right. split; lia.
  - apply Z.eqb_neq in E. left. lia.
Qed.

(** C3. Within every language group the audio formats are ordered by
    descending bitrate. In the first [VideoInfoCard] the groups are cut from
    [sortedAudioFormats], whose bitrate is [abr || tbr || 0]; in the third
    one each group of [audio_formats] is sorted in place by [abr || 0].
    Adjacent members of a group have non-increasing bitrate in both. *)
Theorem audio_groups_descending_bitrate :
  (forall (getLanguageDisplay : AudioFormat -> string) audio_formats language grp i a b,
     lookup language (groupedAudioFormats getLanguageDisplay audio_formats) = Some grp ->
     adjacent grp i a b -> audio_bitrate a >= audio_bitrate b) /\
  (forall audio_formats language grp i a b,
     lookup language (groupedAudioFormats_by_language audio_formats) = Some grp ->
     adjacent grp i a b ->
     or_num (AudioFormat.abr a) 0 >= or_num (AudioFormat.abr b) 0).
Proof.
  split.
  - intros getLanguageDisplay audio_formats language grp i a b Hg Hadj.
    unfold groupedAudioFormats in Hg.
    rewrite (lookup_group_by _ _ _ _ Hg) in Hadj.
    refine (Sorted_adjacent (fun x y => audio_bitrate x >= audio_bitrate y) _ _ _ _ _ Hadj).
    apply Sorted_filter_ge.
    refine (Sorted_weaken _ _ _ _ (js_sort_sorted audio_cmp audio_cmp_antisym _)).
    intros x y Hxy. unfold audio_cmp in Hxy.
    destruct (audio_bitrate y - audio_bitrate x =? 0) eqn:E; simpl in Hxy.
    + apply Z.eqb_eq in E. lia.
    + lia.
  - intros audio_formats language grp i a b Hg Hadj.
    destruct (lookup_map_groups _ _ _ _ Hg) as (g0 & _ & ->).
    refine (Sorted_adjacent (fun x y => or_num (AudioFormat.abr x) 0 >= or_num (AudioFormat.abr y) 0)
              _ _ _ _ _ Hadj).
    refine (Sorted_weaken _ _ _ _ (js_sort_sorted abr_cmp abr_cmp_antisym _)).
    intros x y Hxy. unfold abr_cmp in Hxy. lia.
Qed.

(** C8. Only usable formats reach the sorted lists and the groups of the
    first [VideoInfoCard]: every video format there has a height and a width
    (both defined and non-zero), and every audio format an [acodec] that is
    defined, non-empty and not ["none"]. *)
Theorem usable_formats_only :
  (forall (getQualityLabel : VideoFormat -> string) video_formats f,
     (In f (sortedVideoFormats video_formats) \/
      exists quality grp, lookup quality (groupedVideoFormats getQualityLabel video_formats) = Some grp
                          /\ In f grp) ->
     exists h w, VideoFormat.height f = Some h /\ h <> 0 /\
                 VideoFormat.width f = Some w /\ w <> 0) /\
  (forall (getLanguageDisplay : AudioFormat -> string) audio_formats f,
     (In f (sortedAudioFormats audio_formats) \/
      exists language grp, lookup language (groupedAudioFormats getLanguageDisplay audio_formats) = Some grp
                           /\ In f grp) ->
     exists c, AudioFormat.acodec f = Some c /\ c <> ""%string /\ c <> "none"%string).
Proof.
  split.
  - intros getQualityLabel video_formats f H. apply video_usable_spec.
    destruct H as [H | (quality & grp & Hg & Hf)].
    + exact (proj2 (In_sortedVideoFormats _ _ H)).
    + exact (proj2 (In_sortedVideoFormats _ _ (In_group _ _ _ _ _ Hg Hf))).
  - intros getLanguageDisplay audio_formats f H. apply audio_usable_spec.
    destruct H as [H | (language & grp & Hg & Hf)].
    + exact (proj2 (In_sortedAudioFormats _ _ H)).
    + exact (proj2 (In_sortedAudioFormats _ _ (In_group _ _ _ _ _ Hg Hf))).
Qed.
(** ** Facts about [encodeURIComponent] and [decodeURIComponent] *)

(** Rewrite the boolean comparisons of [Z] whose value [tac] can decide. *)
Ltac zbool tac :=
  repeat match goal with
  | |- context [Z.ltb ?x ?y] =>
      first [ rewrite (proj2 (Z.ltb_lt x y)) by tac
            | rewrite (proj2 (Z.ltb_ge x y)) by tac ]
  | |- context [Z.leb ?x ?y] =>
      first [ rewrite (proj2 (Z.leb_le x y)) by tac
            | rewrite (proj2 (Z.leb_gt x y)) by tac ]
  | |- context [Z.eqb ?x ?y] =>
      first [ rewrite (proj2 (Z.eqb_eq x y)) by tac
            | rewrite (proj2 (Z.eqb_neq x y)) by tac ]
  end.

Ltac zdm := Z.div_mod_to_equations; lia.

Ltac octets_ok := first [ reflexivity | repeat constructor; zdm ].

Lemma hex_value_digit (d : Z) : 0 <= d < 16 -> hex_value (hex_digit d) = Some d.
Proof.
  intros Hd. unfold hex_digit, hex_value.
  destruct (Z.ltb_spec d 10); zbool lia; cbn [andb]; f_equal; lia.
Qed.

Lemma hex_digit_unescaped (d : Z) : 0 <= d < 16 -> uri_unescaped (hex_digit d) = true.
Proof.
  intros Hd. unfold hex_digit, uri_unescaped.
  destruct (Z.ltb_spec d 10); zbool lia; cbn [andb orb];
    rewrite ?orb_true_r; reflexivity.
Qed.

Lemma read_escape_percent (b : Z) (rest : jsstring) :
  0 <= b < 256 -> read_escape (percent_escape b ++ rest) = Some (b, rest).
Proof.
  intros Hb. unfold percent_escape. cbn [app read_escape].
  rewrite !hex_value_digit by zdm.
  do 2 f_equal. zdm.
Qed.

Lemma decode_step_percent (b : Z) (rest : jsstring) :
  0 <= b < 256 -> decode_step (percent_escape b ++ rest) = decode_octets b rest.
Proof.
  intros Hb. unfold decode_step. rewrite read_escape_percent by exact Hb.
  reflexivity.
Qed.

Lemma read_continuation_escapes (bs : list Z) (n : nat) (rest : jsstring) :
  n = length bs -> Forall (fun b => 0 <= b < 256) bs ->
  read_continuation n (flat_map percent_escape bs ++ rest) = Some (bs, rest).
Proof.
  intros -> Hbs. induction Hbs as [|b bs Hb Hbs IH]; [reflexivity|].
  cbn [length flat_map]. rewrite <- app_assoc.
  cbn [read_continuation]. rewrite read_escape_percent by exact Hb.
  rewrite IH. reflexivity.
Qed.

(** A valid code point, written as escaped UTF-8, is decoded back in one
    step of Decode. *)
Ltac settle_code_point cp :=
  cbv zeta;
  match goal with
  | |- context [@Some Z ?v] =>
      tryif constr_eq v cp then fail else replace v with cp by zdm
  end;
  zbool zdm;
  repeat match goal with |- context [Z.leb ?x ?y] => destruct (Z.leb_spec x y) end;
  cbn [andb negb]; first [ exfalso; lia | reflexivity ].

Lemma decode_step_code_point (cp : Z) (rest : jsstring) :
  0 <= cp <= 0x10FFFF -> ~ (0xD800 <= cp <= 0xDFFF) ->
  decode_step (flat_map percent_escape (utf8_octets cp) ++ rest)
  = Some (UTF16EncodeCodePoint cp, rest).
Proof.
  intros Hcp Hsur. unfold utf8_octets.
  destruct (Z.ltb_spec cp 0x80); [|destruct (Z.ltb_spec cp 0x800);
    [|destruct (Z.ltb_spec cp 0x10000)]];
  cbn [flat_map]; rewrite <- app_assoc;
  (rewrite decode_step_percent by zdm); unfold decode_octets, leading_ones.
  - zbool lia. unfold UTF16EncodeCodePoint. zbool lia. reflexivity.
  - zbool zdm. cbn [Nat.eqb Nat.ltb Nat.leb Nat.sub orb].
    rewrite (read_continuation_escapes [0x80 + cp mod 64]) by octets_ok.
    unfold utf8_code_point, continuation_octet. cbn [tl forallb].
    settle_code_point cp.
  - zbool zdm. cbn [Nat.eqb Nat.ltb Nat.leb Nat.sub orb].
    rewrite (read_continuation_escapes [0x80 + (cp / 64) mod 64; 0x80 + cp mod 64])
      by octets_ok.
    unfold utf8_code_point, continuation_octet. cbn [tl forallb].
    settle_code_point cp.
  - zbool zdm. cbn [Nat.eqb Nat.ltb Nat.leb Nat.sub orb].
    rewrite (read_continuation_escapes
               [0x80 + (cp / 4096) mod 64; 0x80 + (cp / 64) mod 64; 0x80 + cp mod 64])
      by octets_ok.
    unfold utf8_code_point, continuation_octet. cbn [tl forallb].
    settle_code_point cp.
Qed.

Lemma UTF16_bmp (c : Z) : c < 0x10000 -> UTF16EncodeCodePoint c = [c].
Proof. intros Hc. unfold UTF16EncodeCodePoint. zbool lia. reflexivity. Qed.

Lemma UTF16_pair (hi lo : Z) :
  0xD800 <= hi <= 0xDBFF -> 0xDC00 <= lo <= 0xDFFF ->
  UTF16EncodeCodePoint ((hi - 0xD800) * 1024 + (lo - 0xDC00) + 0x10000) = [hi; lo].
Proof.
  intros Hhi Hlo. unfold UTF16EncodeCodePoint. zbool lia.
  f_equal; [|f_equal]; zdm.
Qed.

Lemma utf8_octets_bytes (cp : Z) :
  0 <= cp <= 0x10FFFF -> Forall (fun b => 0 <= b < 256) (utf8_octets cp).
Proof.
  intros Hcp. unfold utf8_octets.
  destruct (Z.ltb_spec cp 0x80); [|destruct (Z.ltb_spec cp 0x800);
    [|destruct (Z.ltb_spec cp 0x10000)]]; repeat constructor; zdm.
Qed.

Lemma escaped_code_point_shape (cp : Z) :
  exists t, flat_map percent_escape (utf8_octets cp) = 37 :: t /\ (2 <= length t)%nat.
Proof.
  unfold utf8_octets.
  destruct (cp <? 0x80); [|destruct (cp <? 0x800); [|destruct (cp <? 0x10000)]];
    cbn [flat_map percent_escape app]; eexists; split; try reflexivity; simpl; lia.
Qed.

Lemma escapes_safe (bs : list Z) :
  Forall (fun b => 0 <= b < 256) bs -> Forall uri_safe (flat_map percent_escape bs).
Proof.
  intros Hbs. induction Hbs as [|b bs Hb Hbs IH]; [constructor|].
  cbn [flat_map]. apply Forall_app. split; [|exact IH].
  unfold percent_escape, uri_safe.
  constructor; [right; reflexivity|].
  constructor; [left; apply hex_digit_unescaped; zdm|].
  constructor; [left; apply hex_digit_unescaped; zdm|].
  constructor.
Qed.

Lemma unescaped_ascii (c : Z) : uri_unescaped c = true -> 0 <= c < 128 /\ c <> 37.
Proof.
  unfold uri_unescaped. intros H.
  repeat rewrite orb_true_iff in H. repeat rewrite andb_true_iff in H.
  destruct H as [[[[H1 H2]|[H1 H2]]|[H1 H2]]|H];
    [apply Z.leb_le in H1, H2; lia .. |].
  cbn [existsb] in H. repeat rewrite orb_true_iff in H.
  repeat destruct H as [H|H]; try discriminate; apply Z.eqb_eq in H; lia.
Qed.

Lemma decode_loop_step (fuel : nat) (s out rest : jsstring) :
  s <> [] -> decode_step s = Some (out, rest) ->
  decode_loop (S fuel) s = option_map (app out) (decode_loop fuel rest).
Proof.
  intros Hs Hstep. destruct s as [|c s]; [contradiction|].
  cbn [decode_loop]. rewrite Hstep. reflexivity.
Qed.

Lemma encode_decode_roundtrip (s : jsstring) :
  well_formed_utf16 s = true ->
  exists e, encodeURIComponent s = Some e /\ (length s <= length e)%nat /\
    Forall uri_safe e /\
    forall fuel, (length s < fuel)%nat -> decode_loop fuel e = Some s.
Proof.
  enough (H : forall n s, (length s <= n)%nat -> well_formed_utf16 s = true ->
    exists e, encodeURIComponent s = Some e /\ (length s <= length e)%nat /\
      Forall uri_safe e /\
      forall fuel, (length s < fuel)%nat -> decode_loop fuel e = Some s)
    by (apply (H (length s)); lia).
  clear s. induction n as [|n IH]; intros s Hlen Hwf.
  - destruct s; [|simpl in Hlen; lia].
    exists []. refine (conj eq_refl (conj (le_n 0) (conj (Forall_nil _) _))).
    intros [|f] _; reflexivity.
  - destruct s as [|c rest].
    { exists []. refine (conj eq_refl (conj (le_n 0) (conj (Forall_nil _) _))).
      intros [|f] _; reflexivity. }
    cbn [well_formed_utf16] in Hwf.
    apply andb_true_iff in Hwf as [Hrange Hwf].
    apply andb_true_iff in Hrange as [H0 H1]. apply Z.leb_le in H0, H1.
    cbn [encodeURIComponent].
    destruct (uri_unescaped c) eqn:Hun.
    + (* an unescaped character is copied *)
      destruct (unescaped_ascii c Hun) as [Hc Hc37].
      assert (Hhi : is_high_surrogate c = false)
        by (unfold is_high_surrogate; zbool lia; reflexivity).
      rewrite Hhi in Hwf. apply andb_true_iff in Hwf as [_ Hwf].
      cbn [length] in Hlen.
      destruct (IH rest ltac:(lia) Hwf) as (e & He & Hle & Hsafe & Hdec).
      exists (c :: e). rewrite He. refine (conj eq_refl (conj _ (conj _ _))).
      * cbn [length]. lia.
      * constructor; [left; exact Hun | exact Hsafe].
      * intros fuel Hfuel. destruct fuel as [|fuel]; [cbn [length] in Hfuel; lia|].
        rewrite (decode_loop_step fuel (c :: e) [c] e); [| discriminate |].
        -- cbn [length] in Hfuel. rewrite (Hdec fuel ltac:(lia)). reflexivity.
        -- unfold decode_step. zbool lia. reflexivity.
    + destruct (is_high_surrogate c) eqn:Hhi.
      * (* a surrogate pair is one code point of four octets *)
        destruct rest as [|c2 rest']; [discriminate|].
        apply andb_true_iff in Hwf as [Hlo Hwf].
        rewrite Hlo.
        unfold is_high_surrogate, is_low_surrogate in Hhi, Hlo.
        apply andb_true_iff in Hhi as [Hh1 Hh2]. apply andb_true_iff in Hlo as [Hl1 Hl2].
        apply Z.leb_le in Hh1, Hh2, Hl1, Hl2.
        set (cp := (c - 0xD800) * 1024 + (c2 - 0xDC00) + 0x10000).
        cbn [length] in Hlen.
        destruct (IH rest' ltac:(lia) Hwf) as (e & He & Hle & Hsafe & Hdec).
        rewrite He. cbn [option_map].
        destruct (escaped_code_point_shape cp) as (t & Ht & Htlen).
        exists (flat_map percent_escape (utf8_octets cp) ++ e).
        refine (conj eq_refl (conj _ (conj _ _))).
        -- rewrite length_app, Ht. cbn [length]. lia.
        -- apply Forall_app. split; [|exact Hsafe].
           apply escapes_safe, utf8_octets_bytes. subst cp. lia.
        -- intros fuel Hfuel. destruct fuel as [|fuel]; [cbn [length] in Hfuel; lia|].
           rewrite (decode_loop_step fuel _ [c; c2] e).
           ++ cbn [length] in Hfuel. rewrite (Hdec fuel ltac:(lia)). reflexivity.
           ++ rewrite Ht. discriminate.
           ++ rewrite decode_step_code_point by (subst cp; lia).
              subst cp. rewrite UTF16_pair by lia. reflexivity.
      * (* any other code unit is one code point *)
        destruct (is_low_surrogate c) eqn:Hlow; [discriminate|].
        cbn [andb negb] in Hwf.
        cbn [length] in Hlen.
        destruct (IH rest ltac:(lia) Hwf) as (e & He & Hle & Hsafe & Hdec).
        rewrite He. cbn [option_map].
        destruct (escaped_code_point_shape c) as (t & Ht & Htlen).
        exists (flat_map percent_escape (utf8_octets c) ++ e).
        refine (conj eq_refl (conj _ (conj _ _))).
        -- rewrite length_app, Ht. cbn [length]. lia.
        -- apply Forall_app. split; [|exact Hsafe].
           apply escapes_safe, utf8_octets_bytes. lia.
        -- intros fuel Hfuel. destruct fuel as [|fuel]; [cbn [length] in Hfuel; lia|].
           rewrite (decode_loop_step fuel _ [c] e).
           ++ cbn [length] in Hfuel. rewrite (Hdec fuel ltac:(lia)). reflexivity.
           ++ rewrite Ht. discriminate.
           ++ unfold is_high_surrogate, is_low_surrogate in Hhi, Hlow.
              rewrite decode_step_code_point.
              ** rewrite UTF16_bmp by lia. reflexivity.
              ** lia.
              ** intros Hs.
                 destruct (Z.leb_spec 0xD800 c), (Z.leb_spec c 0xDBFF),
                          (Z.leb_spec 0xDC00 c), (Z.leb_spec c 0xDFFF);
                   cbn [andb] in Hhi, Hlow; try discriminate; lia.
Qed.

Lemma last_segment_after_slash (p e : jsstring) :
  existsb (Z.eqb 47) e = false -> last_segment (p ++ 47 :: e) = e.
Proof.
  intros He. induction p as [|x p IH].
  - cbn [app last_segment]. rewrite He. reflexivity.
  - cbn [app last_segment].
    replace (existsb (Z.eqb 47) (p ++ 47 :: e)) with true.
    + exact IH.
    + symmetry. rewrite existsb_app. cbn [existsb]. rewrite orb_true_r. reflexivity.
Qed.

Lemma safe_not_delimiter (c : Z) : uri_safe c -> c <> 47 /\ c <> 63 /\ c <> 35 /\ c <> 32.
Proof.
  intros [H|H]; [|subst; lia].
  destruct (unescaped_ascii c H) as [Hc _].
  repeat split; intros ->; discriminate H.
Qed.

Lemma unescaped_not_surrogate (c : Z) :
  uri_unescaped c = true -> is_high_surrogate c = false /\ is_low_surrogate c = false.
Proof.
  unfold uri_unescaped, is_high_surrogate, is_low_surrogate. intros H.
  cbn [existsb] in H.
  split; apply not_true_iff_false; intros H';
    repeat match goal with
    | H : (_ || _) = true |- _ => apply orb_true_iff in H as [H|H]
    | H : (_ && _) = true |- _ => apply andb_true_iff in H as [? ?]
    | H : (_ <=? _) = true |- _ => apply Z.leb_le in H
    | H : (_ =? _) = true |- _ => apply Z.eqb_eq in H
    end; try discriminate; lia.
Qed.

(** On a JS string (code units in [0, 0xFFFF]) with an unpaired surrogate,
    [encodeURIComponent] throws. *)
Lemma encode_ill_formed (s : jsstring) :
  Forall (fun c => 0 <= c <= 0xFFFF) s -> well_formed_utf16 s = false ->
  encodeURIComponent s = None.
Proof.
  remember (length s) as n eqn:Hn. revert s Hn.
  induction n as [n IH] using lt_wf_ind. intros s Hn Hr Hwf.
  destruct s as [|c rest]; [discriminate|].
  inversion Hr as [|? ? Hc Hrest]; subst.
  cbn [well_formed_utf16] in Hwf.
  assert (Hcr : ((0 <=? c) && (c <=? 0xFFFF)) = true)
    by (apply andb_true_iff; split; apply Z.leb_le; lia).
  rewrite Hcr in Hwf. cbn [andb] in Hwf.
  cbn [encodeURIComponent].
  destruct (uri_unescaped c) eqn:Eu.
  - destruct (unescaped_not_surrogate c Eu) as [Eh El]. rewrite Eh, El in Hwf.
    cbn [negb andb] in Hwf.
    rewrite (IH (length rest) ltac:(cbn [length]; lia) rest eq_refl Hrest Hwf). reflexivity.
  - destruct (is_high_surrogate c) eqn:Eh.
    + destruct rest as [|c2 rest']; [reflexivity|].
      destruct (is_low_surrogate c2) eqn:El; [|reflexivity].
      cbn [andb] in Hwf. inversion Hrest as [|? ? _ Hrest']; subst.
      rewrite (IH (length rest') ltac:(cbn [length]; lia) rest' eq_refl Hrest' Hwf). reflexivity.
    + destruct (is_low_surrogate c) eqn:El; [reflexivity|].
      cbn [negb andb] in Hwf.
      rewrite (IH (length rest) ltac:(cbn [length]; lia) rest eq_refl Hrest Hwf). reflexivity.
Qed.

(** ** Claim about the URL of a staged file *)

(** C9 (counterexample). A filename holding an unpaired surrogate code unit
    is a JS string, yet [encodeURIComponent] throws [URIError] on it, so
    [getDownloadFileUrl] returns no URL at all. *)
Lemma getDownloadFileUrl_lone_surrogate_throws :
  getDownloadFileUrl (units_of_string "http://localhost:5000") [0xD800] = None.
Proof. reflexivity. Qed.

(** C9 (amended). For every well-formed filename (no unpaired surrogate),
    [getDownloadFileUrl] returns [API_BASE_URL + "/api/downloads/files/"]
    followed by [encodeURIComponent(filename)]; that encoding holds no
    ['/'], ['?'], ['#'] or space, so it is the final path segment of the
    URL, and decoding that segment gives the filename back. Hence two
    well-formed filenames with the same URL are equal. For every JS string
    that is not well formed (it has an unpaired surrogate),
    [encodeURIComponent] throws [URIError] and no URL is returned. *)
Theorem getDownloadFileUrl_roundtrip (API_BASE_URL filename : jsstring) :
  (well_formed_utf16 filename = true ->
  exists e,
    encodeURIComponent filename = Some e /\
    getDownloadFileUrl API_BASE_URL filename
      = Some (API_BASE_URL ++ units_of_string "/api/downloads/files/" ++ e) /\
    Forall (fun c => c <> 47 /\ c <> 63 /\ c <> 35 /\ c <> 32) e /\
    last_segment (API_BASE_URL ++ units_of_string "/api/downloads/files/" ++ e) = e /\
    decodeURIComponent e = Some filename /\
    (forall other, well_formed_utf16 other = true ->
       getDownloadFileUrl API_BASE_URL other = getDownloadFileUrl API_BASE_URL filename ->
       other = filename)) /\
  (Forall (fun c => 0 <= c <= 0xFFFF) filename -> well_formed_utf16 filename = false ->
   getDownloadFileUrl API_BASE_URL filename = None).
Proof.
  split.
  2:{ intros Hr Hwf. unfold getDownloadFileUrl. rewrite (encode_ill_formed filename Hr Hwf).
      reflexivity. }
  intros Hwf.
  destruct (encode_decode_roundtrip filename Hwf) as (e & He & Hle & Hsafe & Hdec).
  assert (Hdelim : Forall (fun c => c <> 47 /\ c <> 63 /\ c <> 35 /\ c <> 32) e).
  { eapply Forall_impl; [|exact Hsafe]. exact safe_not_delimiter. }
  assert (Hdecode : decodeURIComponent e = Some filename).
  { unfold decodeURIComponent. apply Hdec. lia. }
  exists e. split; [exact He|]. split.
  { unfold getDownloadFileUrl. rewrite He. reflexivity. }
  split; [exact Hdelim|]. split.
  { replace (API_BASE_URL ++ units_of_string "/api/downloads/files/" ++ e)
      with ((API_BASE_URL ++ units_of_string "/api/downloads/files") ++ 47 :: e)
      by (rewrite <- app_assoc; reflexivity).
    apply last_segment_after_slash.
    apply not_true_iff_false. intros Hex. apply existsb_exists in Hex as (x & Hx & Hx47).
    apply Z.eqb_eq in Hx47. subst x.
    destruct (proj1 (Forall_forall _ _) Hdelim 47 Hx) as [H _]. apply H; reflexivity. }
  split; [exact Hdecode|].
  intros other Hwf' Hsame.
  destruct (encode_decode_roundtrip other Hwf') as (e' & He' & Hle' & _ & Hdec').
  unfold getDownloadFileUrl in Hsame. rewrite He, He' in Hsame. cbn [option_map] in Hsame.
  injection Hsame as Hsame. apply app_inv_head in Hsame.
  repeat (injection Hsame as Hsame).
  subst e'.
  assert (Hd' : decodeURIComponent e = Some other) by (unfold decodeURIComponent; apply Hdec'; lia).
  rewrite Hdecode in Hd'. injection Hd' as Hd'. symmetry. exact Hd'.
Qed.

(** ** Claims about the API error handling *)

Lemma ceil_div_spec (x d : Z) : 0 < d -> d * (ceil_div x d - 1) < x <= d * ceil_div x d.
Proof. intros Hd. unfold ceil_div. Z.div_mod_to_equations. lia. Qed.

(** C6 (counterexample). A 429 answer of type [bot_detection] with
    [retry_after: 120] makes both functions throw a fixed bot-detection
    message, which is not the message with a retry-after hint. *)
Lemma throttled_bot_detection_has_no_retry_hint :
  status bot_detection_response = 429 /\
  getVideoInfo bot_detection_response
    = Thrown (ErrorMsg "YouTube bot detection triggered. Cookie authentication is required. Please check the deployment guide for cookie setup instructions.") /\
  startDirectDownload bot_detection_response
    = Thrown (ErrorMsg "YouTube bot detection triggered. Please check cookie configuration in your deployment settings.") /\
  ~ (exists m, getVideoInfo bot_detection_response = Thrown (ErrorMsg (throttle_message m))) /\
  ~ (exists m, startDirectDownload bot_detection_response = Thrown (ErrorMsg (throttle_message m))).
Proof.
  split; [reflexivity|]. split; [reflexivity|]. split; [reflexivity|].
  split; intros [m Hm]; vm_compute in Hm; injection Hm as Hm; discriminate Hm.
Qed.

(** C6 (amended). Every 429 answer makes [getVideoInfo] and
    [startDirectDownload] throw. A body that is not JSON gives a
    [SyntaxError], with no hint. Otherwise, when the [type] is none of the
    special ones ([extraction_failure], [bot_detection], and for
    [getVideoInfo] also [video_unavailable], [age_restricted]) the message
    is the throttling message with [m] minutes, where [m] is the ceiling of
    [retry_after / 60], and [retry_after] defaults to 300 when absent or 0.
    For a special type the outcome does not depend on [retry_after], and
    for [bot_detection] it is a fixed bot-detection message. *)
Theorem throttled_responses_raise {A} (st : Z) (body : option (A * ErrorBody)) :
  st = 429 ->
  (exists err, with_json st body getVideoInfo = Thrown err) /\
  (exists err, with_json st body startDirectDownload = Thrown err) /\
  (body = None ->
   with_json st body getVideoInfo = Thrown SyntaxError /\
   with_json st body startDirectDownload = Thrown SyntaxError) /\
  (forall a e, body = Some (a, e) ->
   (forallb (fun t => negb (type_is e t))
      ["extraction_failure"; "bot_detection"; "video_unavailable"; "age_restricted"]%string = true ->
    with_json st body getVideoInfo = Thrown (ErrorMsg (throttle_message (retry_minutes e)))) /\
   (forallb (fun t => negb (type_is e t)) ["extraction_failure"; "bot_detection"]%string = true ->
    with_json st body startDirectDownload = Thrown (ErrorMsg (throttle_message (retry_minutes e)))) /\
   (existsb (type_is e)
      ["extraction_failure"; "bot_detection"; "video_unavailable"; "age_restricted"]%string = true ->
    forall ra, with_json st (Some (a, with_retry_after ra e)) getVideoInfo = with_json st body getVideoInfo) /\
   (existsb (type_is e) ["extraction_failure"; "bot_detection"]%string = true ->
    forall ra, with_json st (Some (a, with_retry_after ra e)) startDirectDownload
               = with_json st body startDirectDownload) /\
   (type_is e "bot_detection" = true ->
    with_json st body getVideoInfo
      = Thrown (ErrorMsg ("YouTube bot detection triggered. " ++
          (if negb (match has_cookies e with Some b => b | None => false end)
           then "Cookie authentication is required. Please check the deployment guide for cookie setup instructions."
           else "Your cookies may be expired. Please refresh them and redeploy."))%string) /\
    with_json st body startDirectDownload
      = Thrown (ErrorMsg "YouTube bot detection triggered. Please check cookie configuration in your deployment settings."%string)) /\
   (let secs := match retry_after e with
                | Some x => if x =? 0 then 300 else x
                | None => 300
                end in
    60 * (retry_minutes e - 1) < secs <= 60 * retry_minutes e)).
Proof.
  intros ->.
  assert (Hr : forall (a : A) e, response_ok {| status := 429; ok_body := a; error_body := e |} = false)
    by reflexivity.
  split; [|split; [|split]].
  - destruct body as [[a e]|]; cbn [with_json]; [|eexists; reflexivity].
    unfold getVideoInfo. rewrite Hr. cbn [error_body status negb].
    destruct (type_is e "extraction_failure"), (type_is e "bot_detection"),
      (type_is e "video_unavailable"), (type_is e "age_restricted"); eexists; reflexivity.
  - destruct body as [[a e]|]; cbn [with_json]; [|eexists; reflexivity].
    unfold startDirectDownload. rewrite Hr. cbn [error_body status negb].
    destruct (type_is e "extraction_failure"), (type_is e "bot_detection"); eexists; reflexivity.
  - intros ->. split; reflexivity.
  - intros a e ->. cbn [with_json]. unfold getVideoInfo, startDirectDownload. rewrite !Hr.
    cbn [error_body status negb].
    assert (Ht : forall ra t, type_is (with_retry_after ra e) t = type_is e t) by reflexivity.
    split; [|split; [|split; [|split; [|split]]]].
    + cbn [forallb]. intros H.
      destruct (type_is e "extraction_failure"), (type_is e "bot_detection"),
        (type_is e "video_unavailable"), (type_is e "age_restricted");
        cbn in H; try discriminate; reflexivity.
    + cbn [forallb]. intros H.
      destruct (type_is e "extraction_failure"), (type_is e "bot_detection");
        cbn in H; try discriminate; reflexivity.
    + cbn [existsb]. intros H ra. rewrite !Ht.
      destruct (type_is e "extraction_failure"), (type_is e "bot_detection"),
        (type_is e "video_unavailable"), (type_is e "age_restricted");
        cbn in H; try discriminate; reflexivity.
    + cbn [existsb]. intros H ra. rewrite !Ht.
      destruct (type_is e "extraction_failure"), (type_is e "bot_detection");
        cbn in H; try discriminate; reflexivity.
    + intros Hb.
      assert (He : type_is e "extraction_failure" = false).
      { unfold type_is in *. destruct (type e) as [t|]; [|discriminate].
        apply String.eqb_eq in Hb. subst t. reflexivity. }
      rewrite He, Hb. split; reflexivity.
    + cbv zeta. unfold retry_minutes, or_num.
      destruct (retry_after e) as [x|]; [destruct (x =? 0)|];
        apply ceil_div_spec; lia.
Qed.

Lemma throttled_responses_raise_witness :
  (429 = 429) /\
  with_json 429 (Some (tt, error_body_of None (Some 90))) getVideoInfo
    = Thrown (ErrorMsg "YouTube is temporarily blocking requests. Please wait 2 minutes and try again.") /\
  with_json 429 (@None (unit * ErrorBody)) startDirectDownload = Thrown SyntaxError /\
  with_json 429 (Some (tt, error_body_of (Some "bot_detection"%string) (Some 600))) startDirectDownload
    = with_json 429 (Some (tt, error_body_of (Some "bot_detection"%string) (Some 120))) startDirectDownload.
Proof.
  split; [reflexivity|]. split.
  { destruct (throttled_responses_raise 429 (Some (tt, error_body_of None (Some 90))) eq_refl)
      as (_ & _ & _ & H).
    destruct (H tt _ eq_refl) as [Hvi _]. rewrite (Hvi eq_refl). vm_compute. reflexivity. }
  split.
  { exact (proj2 (proj1 (proj2 (proj2 (throttled_responses_raise 429 (@None (unit * ErrorBody)) eq_refl)))
                    eq_refl)). }
  destruct (throttled_responses_raise 429
              (Some (tt, error_body_of (Some "bot_detection"%string) (Some 120))) eq_refl)
    as (_ & _ & _ & H).
  destruct (H tt _ eq_refl) as (_ & _ & _ & Hind & _).
  exact (Hind eq_refl (Some 600)).
Defined.

(** ** Claims about the download buttons *)

(** C7. The direct-download button posts [{url, quality}] with the quality
    built from the selected height, but it names the file [safe_title +
    ".mp4"] whatever [file_extension] the server answers: for an answer
    with [file_extension: ".webm"] the file is still saved as [.mp4]. *)
Theorem direct_download_ignores_file_extension :
  DirectData.file_extension (ok_body webm_response) = Some ".webm"%string /\
  startDirectDownload_click sample_base_url sample_url (Some video_720_high) (fun _ => webm_response)
  = {| requests := [("/api/download-direct",
                     [("url", sample_url); ("quality", "best[height<=720]")])]%string;
       task_statuses := ["preparing"; "downloading"; "completed"]%string;
       link := Some ("http://localhost:5000/api/download-stream/d42", "Sample_Video.mp4")%string;
       shown_error := None |}.
Proof. split; vm_compute; reflexivity. Qed.

(** C1. [api] has no member [startCustomFormatDownload]: with a non-blank
    URL and both a video and an audio format selected, the custom-format
    button throws a [TypeError] that is shown as the error; no request is
    sent and no task is created. *)
Theorem custom_format_download_has_no_api (API_BASE_URL url : string)
  (v : VideoFormat) (a : AudioFormat) :
  is_blank url = false ->
  ~ In "startCustomFormatDownload"%string api_member_names /\
  startCustomFormatDownload_click api_startCustomFormatDownload API_BASE_URL url (Some v) (Some a)
  = {| requests := []; task_statuses := []; link := None; shown_error := Some TypeError |}.
Proof.
  intros Hurl. split.
  - cbn [In api_member_names]. intros H.
    repeat (destruct H as [H|H]; [discriminate H|]). exact H.
  - unfold startCustomFormatDownload_click. rewrite Hurl. reflexivity.
Qed.

Lemma custom_format_download_has_no_api_witness :
  is_blank sample_url = false /\
  (~ In "startCustomFormatDownload"%string api_member_names /\
   startCustomFormatDownload_click api_startCustomFormatDownload sample_base_url sample_url
     (Some video_720_high) (Some audio_mp3)
   = {| requests := []; task_statuses := []; link := None; shown_error := Some TypeError |}).
Proof.
  split; [vm_compute; reflexivity|].
  apply custom_format_download_has_no_api. vm_compute. reflexivity.
Defined.

(** ** Claims about status polling *)

Lemma pollStatus_idle (w : Poller) :
  negb (isPolling w) || is_terminal (DownloadTask.status (currentTask w)) = true ->
  pollStatus w = w.
Proof. intros H. unfold pollStatus. rewrite H. reflexivity. Qed.

Lemma iter_fixed {A} (f : A -> A) (x : A) : f x = x -> forall n, Nat.iter n f x = x.
Proof. intros H n. induction n as [|n IH]; [reflexivity|]. change (f (Nat.iter n f x) = x). rewrite IH. exact H. Qed.

(** C5. Once the status of [currentTask] is [completed] or [error], every
    later run of [pollStatus] returns at once: no request is sent and the
    state (task, files, polling flag, requests in flight) is unchanged,
    however many ticks follow. *)
Theorem terminal_poll_idempotent (w : Poller) :
  is_terminal (DownloadTask.status (currentTask w)) = true ->
  forall n, Nat.iter n pollStatus w = w.
Proof.
  intros H. apply iter_fixed, pollStatus_idle. rewrite H. apply orb_true_r.
Qed.

Lemma terminal_poll_idempotent_witness :
  is_terminal (DownloadTask.status (currentTask poller_done)) = true /\
  Nat.iter 3 pollStatus poller_done = poller_done.
Proof.
  split; [reflexivity|].
  apply (terminal_poll_idempotent poller_done). reflexivity.
Defined.

(** C4. Requests of [pollStatus] may overlap, since the interval does not
    wait for the previous one, and answers may arrive out of order. A
    component mounted in [preparing] while the server is [downloading]
    sends a request, the server completes, a second request is sent and
    answered [completed] first, which stops polling; then the first answer
    arrives and sets the task back to [downloading], where it stays: no
    later tick changes it. *)
Theorem late_answer_reverts_completed :
  let w := run_poller poller_start late_answer_trace in
  shown_statuses w = ["preparing"; "completed"; "downloading"]%string /\
  DownloadTask.status (currentTask w) = "downloading"%string /\
  isPolling w = false /\
  in_flight w = [] /\
  (forall n, Nat.iter n pollStatus w = w).
Proof.
  cbv zeta.
  assert (Hw : run_poller poller_start late_answer_trace
               = {| prop_task := server_snapshot "preparing";
                    currentTask := server_snapshot "downloading";
                    isPolling := false; downloadFiles := []; in_flight := [];
                    server_task := server_snapshot "completed";
                    shown_statuses := ["preparing"; "completed"; "downloading"] |}%string)
    by (vm_compute; reflexivity).
  rewrite Hw. split; [reflexivity|]. split; [reflexivity|]. split; [reflexivity|].
  split; [reflexivity|].
  apply iter_fixed, pollStatus_idle. reflexivity.
Qed.

(** ** Witnesses for the claims about the format lists *)

Lemma sortedVideoFormats_quality_then_bitrate_witness :
  adjacent (sortedVideoFormats sample_video_formats) 1 video_720_high video_720_low /\
  exists ha hb, VideoFormat.height video_720_high = Some ha /\ VideoFormat.height video_720_low = Some hb /\
    (ha > hb \/ (ha = hb /\ or_num (VideoFormat.tbr video_720_high) 0 >= or_num (VideoFormat.tbr video_720_low) 0)).
Proof.
  assert (H : adjacent (sortedVideoFormats sample_video_formats) 1 video_720_high video_720_low)
    by (split; vm_compute; reflexivity).
  split; [exact H|].
  exact (sortedVideoFormats_quality_then_bitrate sample_video_formats 1 video_720_high video_720_low H).
Defined.

Lemma audio_groups_descending_bitrate_witness :
  lookup "en"%string (groupedAudioFormats sample_language sample_audio_formats)
    = Some [audio_en_high; audio_en_low] /\
  adjacent [audio_en_high; audio_en_low] 0 audio_en_high audio_en_low /\
  audio_bitrate audio_en_high >= audio_bitrate audio_en_low /\
  lookup "en"%string (groupedAudioFormats_by_language sample_audio_formats)
    = Some [audio_en_high; audio_en_low; mk_audio "sb-a" "none" 0 "en"]%string /\
  or_num (AudioFormat.abr audio_en_high) 0 >= or_num (AudioFormat.abr audio_en_low) 0.
Proof.
  assert (H1 : lookup "en"%string (groupedAudioFormats sample_language sample_audio_formats)
                 = Some [audio_en_high; audio_en_low]) by (vm_compute; reflexivity).
  assert (H2 : adjacent [audio_en_high; audio_en_low] 0 audio_en_high audio_en_low)
    by (split; reflexivity).
  assert (H3 : lookup "en"%string (groupedAudioFormats_by_language sample_audio_formats)
                 = Some [audio_en_high; audio_en_low; mk_audio "sb-a" "none" 0 "en"]%string)
    by (vm_compute; reflexivity).
  assert (H4 : adjacent [audio_en_high; audio_en_low; mk_audio "sb-a" "none" 0 "en"]%string 0
                 audio_en_high audio_en_low)
    by (split; reflexivity).
  split; [exact H1|]. split; [exact H2|].
  split; [exact (proj1 audio_groups_descending_bitrate _ _ _ _ _ _ _ H1 H2)|].
  split; [exact H3|].
  exact (proj2 audio_groups_descending_bitrate _ _ _ _ _ _ H3 H4).
Defined.

Lemma usable_formats_only_witness :
  In video_720_high (sortedVideoFormats sample_video_formats) /\
  (exists h w, VideoFormat.height video_720_high = Some h /\ h <> 0 /\
               VideoFormat.width video_720_high = Some w /\ w <> 0) /\
  In audio_en_high (sortedAudioFormats sample_audio_formats) /\
  (exists c, AudioFormat.acodec audio_en_high = Some c /\ c <> ""%string /\ c <> "none"%string).
Proof.
  assert (H1 : In video_720_high (sortedVideoFormats sample_video_formats))
    by (vm_compute; right; left; reflexivity).
  assert (H2 : In audio_en_high (sortedAudioFormats sample_audio_formats))
    by (vm_compute; left; reflexivity).
  split; [exact H1|].
  split; [exact (proj1 usable_formats_only (fun _ => ""%string) _ _ (or_introl H1))|].
  split; [exact H2|].
  exact (proj2 usable_formats_only (fun _ => ""%string) _ _ (or_introl H2)).
Defined.

Lemma getDownloadFileUrl_roundtrip_witness :
  well_formed_utf16 (units_of_string "my video?.mp4") = true /\
  getDownloadFileUrl (units_of_string "http://localhost:5000") (units_of_string "my video?.mp4")
    = Some (units_of_string "http://localhost:5000/api/downloads/files/my%20video%3F.mp4") /\
  (exists e,
    encodeURIComponent (units_of_string "my video?.mp4") = Some e /\
    getDownloadFileUrl (units_of_string "http://localhost:5000") (units_of_string "my video?.mp4")
      = Some (units_of_string "http://localhost:5000" ++ units_of_string "/api/downloads/files/" ++ e) /\
    Forall (fun c => c <> 47 /\ c <> 63 /\ c <> 35 /\ c <> 32) e /\
    last_segment (units_of_string "http://localhost:5000" ++ units_of_string "/api/downloads/files/" ++ e) = e /\
    decodeURIComponent e = Some (units_of_string "my video?.mp4") /\
    (forall other, well_formed_utf16 other = true ->
       getDownloadFileUrl (units_of_string "http://localhost:5000") other
         = getDownloadFileUrl (units_of_string "http://localhost:5000") (units_of_string "my video?.mp4") ->
       other = units_of_string "my video?.mp4")) /\
  Forall (fun c => 0 <= c <= 0xFFFF) (units_of_string "my" ++ [0xDC00]) /\
  well_formed_utf16 (units_of_string "my" ++ [0xDC00]) = false /\
  getDownloadFileUrl (units_of_string "http://localhost:5000") (units_of_string "my" ++ [0xDC00]) = None.
Proof.
  split; [vm_compute; reflexivity|]. split; [vm_compute; reflexivity|].
  split.
  { apply (proj1 (getDownloadFileUrl_roundtrip (units_of_string "http://localhost:5000")
                    (units_of_string "my video?.mp4"))).
    vm_compute. reflexivity. }
  assert (Hr : Forall (fun c => 0 <= c <= 0xFFFF) (units_of_string "my" ++ [0xDC00]))
    by (cbn; repeat (apply Forall_cons; [lia|]); apply Forall_nil).
  assert (Hwf : well_formed_utf16 (units_of_string "my" ++ [0xDC00]) = false) by (vm_compute; reflexivity).
  split; [exact Hr|]. split; [exact Hwf|].
  exact (proj2 (getDownloadFileUrl_roundtrip (units_of_string "http://localhost:5000")
                  (units_of_string "my" ++ [0xDC00])) Hr Hwf).
Defined.

(** ** Facts about decimal numerals *)

Lemma digit_char (n : Z) :
  is_digit (ascii_of_nat (48 + Z.to_nat (n mod 10))) = true /\
  Z.of_nat (nat_of_ascii (ascii_of_nat (48 + Z.to_nat (n mod 10))) - 48) = n mod 10.
Proof.
  assert (Hm : 0 <= n mod 10 < 10) by (apply Z.mod_pos_bound; lia).
  rewrite nat_ascii_embedding by lia.
  unfold is_digit. rewrite nat_ascii_embedding by lia.
  split.
  - apply andb_true_intro. split; apply Nat.leb_le; lia.
  - lia.
Qed.

Lemma decimal_digits_app (fuel : nat) (n : Z) (acc rest : string) :
  (decimal_digits fuel n acc ++ rest)%string = decimal_digits fuel n (acc ++ rest).
Proof.
  revert n acc. induction fuel as [|f IH]; intros n acc; cbn [decimal_digits]; [reflexivity|].
  destruct (n <? 10); [reflexivity|]. apply IH.
Qed.

Lemma decimal_digits_prefix (fuel : nat) :
  forall n acc, 0 <= n < 10 ^ Z.of_nat fuel ->
  digits_prefix (decimal_digits fuel n acc) 0 = digits_prefix acc n.
Proof.
  induction fuel as [|f IH]; intros n acc Hn; cbn [decimal_digits].
  - cbn in Hn. replace n with 0 by lia. reflexivity.
  - rewrite Nat2Z.inj_succ, Z.pow_succ_r in Hn by lia.
    destruct (digit_char n) as [Hd Hv].
    destruct (Z.ltb_spec n 10).
    + cbn [digits_prefix]. rewrite Hd, Hv. f_equal. rewrite Z.mod_small; lia.
    + rewrite IH by (split; [apply Z.div_pos | apply Z.div_lt_upper_bound]; lia).
      cbn [digits_prefix]. rewrite Hd, Hv. f_equal. zdm.
Qed.

Lemma decimal_digits_head (fuel : nat) :
  forall n acc, exists c r, decimal_digits (S fuel) n acc = String c r /\ is_digit c = true.
Proof.
  induction fuel as [|f IH]; intros n acc; cbn [decimal_digits];
    destruct (n <? 10); try (eexists _, _; split; [reflexivity | apply digit_char]).
  apply IH.
Qed.

Lemma digits_prefix_stop (s : string) (a : Z) : starts_without_digit s -> digits_prefix s a = a.
Proof. destruct s as [|c r]; cbn; [reflexivity|]. intros H. rewrite H. reflexivity. Qed.

Lemma decimal_fuel_bound (n : Z) : 0 <= n -> n < 10 ^ Z.of_nat (S (Z.to_nat (Z.log2 n))).
Proof.
  intros Hn. rewrite Nat2Z.inj_succ, Z2Nat.id by apply Z.log2_nonneg.
  destruct (Z.eq_dec n 0) as [->|Hn0]; [reflexivity|].
  destruct (Z.log2_spec n) as [_ Hlt]; [lia|].
  apply (Z.lt_le_trans _ _ _ Hlt).
  apply Z.pow_le_mono_l. split; [lia|]. lia.
Qed.

(** [Z_to_string] can be read back, whatever non-digit follows it. *)
Lemma leading_int_Z_to_string (n : Z) (rest : string) :
  starts_without_digit rest -> leading_int (Z_to_string n ++ rest) = n.
Proof.
  intros Hrest. unfold Z_to_string. destruct (Z.ltb_spec n 0).
  - cbn [append]. unfold leading_int. cbn [Ascii.eqb Bool.eqb].
    rewrite decimal_digits_app, decimal_digits_prefix
      by (split; [lia | apply decimal_fuel_bound; lia]).
    rewrite digits_prefix_stop by exact Hrest. lia.
  - rewrite decimal_digits_app.
    destruct (decimal_digits_head (Z.to_nat (Z.log2 n)) n ("" ++ rest)) as (c & r & Hcr & Hc).
    unfold leading_int. rewrite Hcr.
    destruct (Ascii.eqb_spec c "-"%char) as [->|_]; [discriminate Hc|].
    rewrite <- Hcr, decimal_digits_prefix by (split; [lia | apply decimal_fuel_bound; lia]).
    apply digits_prefix_stop. exact Hrest.
Qed.

Lemma string_app_inv_head (s a b : string) : (s ++ a)%string = (s ++ b)%string -> a = b.
Proof. induction s as [|c s IH]; cbn; [tauto|]. intros H. injection H as H. exact (IH H). Qed.

(** ** Facts about the quality labels and the groups *)

Lemma same_quality_label (a b : VideoFormat) :
  truthy_num (VideoFormat.height a) = true -> truthy_num (VideoFormat.height b) = true ->
  getQualityLabel a = getQualityLabel b ->
  VideoFormat.height a = VideoFormat.height b /\
  or_num (VideoFormat.fps a) 0 = or_num (VideoFormat.fps b) 0.
Proof.
  unfold getQualityLabel. intros Ha Hb. rewrite Ha, Hb.
  destruct (VideoFormat.height a) as [ha|]; [|discriminate Ha].
  destruct (VideoFormat.height b) as [hb|]; [|discriminate Hb].
  cbn [js_num]. intros H.
  assert (Hh : ha = hb).
  { apply (f_equal leading_int) in H.
    rewrite !leading_int_Z_to_string in H by reflexivity. exact H. }
  subst hb. split; [reflexivity|].
  apply string_app_inv_head in H. cbn [append] in H. injection H as H.
  unfold or_num.
  destruct (VideoFormat.fps a) as [fa|], (VideoFormat.fps b) as [fb|]; cbn in H |- *;
    try reflexivity.
  - destruct (fa =? 0) eqn:Ea, (fb =? 0) eqn:Eb; cbn in H; try discriminate H.
    + apply Z.eqb_eq in Ea, Eb. lia.
    + injection H as H. apply (f_equal leading_int) in H.
      rewrite !leading_int_Z_to_string in H by reflexivity. exact H.
  - destruct (fa =? 0) eqn:Ea; cbn in H; [reflexivity | discriminate H].
  - destruct (fb =? 0) eqn:Eb; cbn in H; [reflexivity | discriminate H].
Qed.

Lemma In_quality_group (video_formats : list VideoFormat) (quality : string) (g : list VideoFormat)
  (f : VideoFormat) :
  lookup quality (groupedVideoFormats getQualityLabel video_formats) = Some g -> In f g ->
  video_usable f = true /\ getQualityLabel f = quality.
Proof.
  intros Hg Hf. unfold groupedVideoFormats in Hg.
  rewrite (lookup_group_by _ _ _ _ Hg) in Hf. apply filter_In in Hf as [Hf Hk].
  split; [exact (proj2 (In_sortedVideoFormats _ _ Hf))|].
  apply String.eqb_eq. exact Hk.
Qed.

(** The formats of one quality group share their height and their frame rate. *)
Theorem quality_group_same_height_fps (video_formats : list VideoFormat) (quality : string)
  (g : list VideoFormat) (a b : VideoFormat) :
  lookup quality (groupedVideoFormats getQualityLabel video_formats) = Some g ->
  In a g -> In b g ->
  VideoFormat.height a = VideoFormat.height b /\
  or_num (VideoFormat.fps a) 0 = or_num (VideoFormat.fps b) 0.
Proof.
  intros Hg Ha Hb.
  destruct (In_quality_group _ _ _ _ Hg Ha) as [Ua La].
  destruct (In_quality_group _ _ _ _ Hg Hb) as [Ub Lb].
  apply andb_prop in Ua, Ub.
  apply same_quality_label; [exact (proj1 Ua) | exact (proj1 Ub) | congruence].
Qed.

(** ** Facts about the grouping as a partition *)

Section GroupingPartition.
Context {A : Type} (key : A -> string).

Lemma push_group_perm (acc : list (string * list A)) (k : string) (f : A) :
  Permutation (concat (map snd (push_group acc k f))) (concat (map snd acc) ++ [f]).
Proof.
  induction acc as [|[k' fs] r IH]; cbn [push_group map concat snd].
  - reflexivity.
  - destruct (String.eqb k k'); cbn [map concat snd].
    + rewrite <- !app_assoc. apply Permutation_app_head. apply Permutation_app_comm.
    + rewrite <- app_assoc. apply Permutation_app_head. exact IH.
Qed.

Lemma fold_group_perm (l : list A) (acc : list (string * list A)) :
  Permutation (concat (map snd (fold_left (fun acc f => push_group acc (key f) f) l acc)))
              (concat (map snd acc) ++ l).
Proof.
  revert acc. induction l as [|x l IH]; intros acc; cbn [fold_left].
  - rewrite app_nil_r. reflexivity.
  - etransitivity; [apply IH|].
    rewrite (push_group_perm acc (key x) x), <- app_assoc. reflexivity.
Qed.

Lemma push_group_keys (acc : list (string * list A)) (k : string) (f : A) :
  map fst (push_group acc k f)
  = if existsb (String.eqb k) (map fst acc) then map fst acc else map fst acc ++ [k].
Proof.
  induction acc as [|[k' fs] r IH]; cbn [push_group map fst existsb]; [reflexivity|].
  destruct (String.eqb k k'); cbn [map fst orb]; [reflexivity|].
  rewrite IH. destruct (existsb (String.eqb k) (map fst r)); reflexivity.
Qed.

Lemma fold_group_keys (l : list A) (acc : list (string * list A)) :
  NoDup (map fst acc) ->
  NoDup (map fst (fold_left (fun acc f => push_group acc (key f) f) l acc)).
Proof.
  revert acc. induction l as [|x l IH]; intros acc H; cbn [fold_left]; [exact H|].
  apply IH. rewrite push_group_keys.
  destruct (existsb (String.eqb (key x)) (map fst acc)) eqn:E; [exact H|].
  apply (Permutation_NoDup (Permutation_app_comm [key x] _)). constructor; [|exact H].
  intros Hin. assert (Hex : existsb (String.eqb (key x)) (map fst acc) = true).
  { apply existsb_exists. exists (key x). split; [exact Hin | apply String.eqb_refl]. }
  congruence.
Qed.

Lemma lookup_In_pair {B} (k : string) (d : list (string * list B)) (g : list B) :
  lookup k d = Some g -> In (k, g) d.
Proof.
  induction d as [|[k' v] r IH]; cbn [lookup]; [discriminate|].
  destruct (String.eqb_spec k k') as [->|_]; intros H.
  - injection H as ->. left. reflexivity.
  - right. exact (IH H).
Qed.

Lemma push_group_nonempty (acc : list (string * list A)) (k : string) (f : A) :
  Forall (fun p => snd p <> []) acc -> Forall (fun p => snd p <> []) (push_group acc k f).
Proof.
  induction acc as [|[k' fs] r IH]; intros H; cbn [push_group].
  - constructor; [discriminate | constructor].
  - inversion H as [|? ? Hfs Hr]; subst.
    destruct (String.eqb k k'); constructor; try assumption.
    + cbn [snd]. destruct fs; discriminate.
    + exact (IH Hr).
Qed.

Lemma fold_group_nonempty (l : list A) (acc : list (string * list A)) :
  Forall (fun p => snd p <> []) acc ->
  Forall (fun p => snd p <> []) (fold_left (fun acc f => push_group acc (key f) f) l acc).
Proof.
  revert acc. induction l as [|x l IH]; intros acc H; cbn [fold_left]; [exact H|].
  apply IH, push_group_nonempty, H.
Qed.

Lemma lookup_push_group_some (acc : list (string * list A)) (k k' : string) (f : A) :
  lookup k acc <> None \/ k = k' -> lookup k (push_group acc k' f) <> None.
Proof.
  rewrite lookup_push_group. destruct (String.eqb_spec k k'); [discriminate|].
  intros [H|H]; [exact H | contradiction].
Qed.

Lemma lookup_fold_group_some (l : list A) (acc : list (string * list A)) (k : string) :
  lookup k acc <> None \/ In k (map key l) ->
  lookup k (fold_left (fun acc f => push_group acc (key f) f) l acc) <> None.
Proof.
  revert acc. induction l as [|x l IH]; intros acc H; cbn [fold_left].
  - destruct H as [H|[]]; exact H.
  - apply IH. destruct H as [H|[H|H]].
    + left. apply lookup_push_group_some. left. exact H.
    + left. apply lookup_push_group_some. right. symmetry. exact H.
    + right. exact H.
Qed.

Lemma group_by_partitions (l : list A) : partitions key l (group_by key l).
Proof.
  unfold partitions, group_by. split; [|split; [|split]].
  - exact (fold_group_perm l []).
  - apply fold_group_keys. constructor.
  - intros k g Hg. split.
    + pose proof (fold_group_nonempty l [] (Forall_nil _)) as Hne.
      rewrite Forall_forall in Hne. exact (Hne _ (lookup_In_pair _ _ _ Hg)).
    + apply (lookup_group_by key) in Hg. subst g. apply Forall_forall.
      intros f Hf. apply filter_In in Hf as [_ Hf]. apply String.eqb_eq. exact Hf.
  - intros f Hf.
    destruct (lookup (key f) (fold_left (fun acc f => push_group acc (key f) f) l [])) as [g|] eqn:E.
    + exists g. split; [reflexivity|]. pose proof (lookup_group_by key _ _ _ E) as ->.
      apply filter_In. split; [exact Hf | apply String.eqb_refl].
    + exfalso. refine (lookup_fold_group_some l [] (key f) _ E).
      right. apply in_map. exact Hf.
Qed.
End GroupingPartition.

Lemma lookup_map_groups_inv {A} (h : list A -> list A) (k : string)
  (d : list (string * list A)) (g : list A) :
  lookup k d = Some g -> lookup k (map (fun '(kk, fs) => (kk, h fs)) d) = Some (h g).
Proof.
  induction d as [|[k0 fs] r IH]; cbn [lookup map]; [discriminate|].
  destruct (String.eqb k k0); [congruence | exact IH].
Qed.

Lemma sort_groups_partitions {A} (key : A -> string) (cmp : A -> A -> Z) (l : list A)
  (d : list (string * list A)) :
  partitions key l d -> partitions key l (map (fun '(kk, fs) => (kk, js_sort cmp fs)) d).
Proof.
  intros (Hp & Hk & Hg & Hin). split; [|split; [|split]].
  - etransitivity; [|exact Hp]. clear -d. induction d as [|[k fs] r IH]; cbn; [reflexivity|].
    apply Permutation_app; [apply js_sort_perm | exact IH].
  - replace (map fst (map (fun '(kk, fs) => (kk, js_sort cmp fs)) d)) with (map fst d); [exact Hk|].
    clear. induction d as [|[k fs] r IH]; cbn; [reflexivity | f_equal; exact IH].
  - intros k g Hl. destruct (lookup_map_groups _ _ _ _ Hl) as (g0 & Hg0 & ->).
    destruct (Hg _ _ Hg0) as [Hne Hall]. split.
    + intros He. apply Hne. apply Permutation_nil. rewrite <- He. apply js_sort_perm.
    + rewrite Forall_forall in Hall |- *. intros f Hf. apply Hall.
      apply (Permutation_in _ (js_sort_perm cmp g0)). exact Hf.
  - intros f Hf. destruct (Hin f Hf) as (g & Hl & Hfg).
    exists (js_sort cmp g). split; [apply lookup_map_groups_inv, Hl|].
    apply (Permutation_in _ (Permutation_sym (js_sort_perm cmp g))). exact Hfg.
Qed.

(** ** Facts about plain objects used as dictionaries *)

Lemma find_none_existsb {B} (p : B -> bool) (l : list B) : existsb p l = false -> find p l = None.
Proof.
  intros H. destruct (find p l) as [x|] eqn:E; [|reflexivity].
  apply find_some in E as [Hx Hp].
  assert (Hex : existsb p l = true) by (apply existsb_exists; exists x; auto).
  congruence.
Qed.

Lemma js_get_own {A} (k : string) (d : list (string * list A)) (v : list A) :
  lookup k d = Some v -> js_get k d = OwnValue v.
Proof. intros H. unfold js_get. rewrite H. reflexivity. Qed.

Lemma js_get_not_proto {A} (k : string) (d : list (string * list A)) :
  is_proto_key k = false -> lookup k d = None -> js_get k d = Undefined.
Proof.
  unfold is_proto_key, js_get. intros Hk Hl. rewrite Hl.
  apply orb_false_iff in Hk as [H1 H2]. rewrite H1, (find_none_existsb _ _ H2). reflexivity.
Qed.

Lemma js_get_inherited {A} (k : string) (d : list (string * list A)) :
  (js_get k d = ProtoObject \/ exists len, js_get k d = ProtoFunction len) -> is_proto_key k = true.
Proof.
  unfold js_get, is_proto_key. destruct (lookup k d).
  { intros [H|[len H]]; discriminate H. }
  destruct (String.eqb k "__proto__"); [reflexivity|]. cbn [orb].
  destruct (find _ object_prototype_functions) as [[n len]|] eqn:E.
  - intros _. apply find_some in E as [Hin Hn]. apply existsb_exists. exists (n, len). auto.
  - intros [H|[len H]]; discriminate H.
Qed.

Lemma js_group_from_ok {A} (key : A -> string) (l : list A) :
  forall acc, (forall x, In x l -> is_proto_key (key x) = false) ->
  js_group_from key acc l = Returned (fold_left (fun acc f => push_group acc (key f) f) l acc).
Proof.
  induction l as [|x r IH]; intros acc Hl; [reflexivity|].
  cbn [js_group_from fold_left]. unfold js_push_group.
  assert (Hx : is_proto_key (key x) = false) by (apply Hl; left; reflexivity).
  destruct (js_get (key x) acc) eqn:E.
  - apply IH. intros y Hy. apply Hl. right. exact Hy.
  - exfalso. assert (H : is_proto_key (key x) = true)
      by (apply (js_get_inherited _ acc); right; eexists; exact E). congruence.
  - exfalso. assert (H : is_proto_key (key x) = true)
      by (apply (js_get_inherited _ acc); left; exact E). congruence.
  - apply IH. intros y Hy. apply Hl. right. exact Hy.
Qed.

Lemma js_group_from_throws {A} (key : A -> string) (l : list A) :
  forall acc x, In x l -> is_proto_key (key x) = true ->
  (forall k, is_proto_key k = true -> lookup k acc = None) ->
  js_group_from key acc l = Thrown TypeError.
Proof.
  induction l as [|y r IH]; intros acc x Hx Hk Hacc; [destruct Hx|].
  cbn [js_group_from]. unfold js_push_group.
  destruct (is_proto_key (key y)) eqn:Ey.
  - unfold js_get. rewrite (Hacc _ Ey).
    destruct (String.eqb (key y) "__proto__") eqn:E0; [reflexivity|].
    destruct (find _ object_prototype_functions) as [[n len]|] eqn:E; [reflexivity|].
    exfalso. unfold is_proto_key in Ey. apply orb_true_iff in Ey as [Ey|Ey].
    + congruence.
    + apply existsb_exists in Ey as (p & Hp & Hpk).
      pose proof (find_none _ _ E p Hp) as Hn. destruct p as [n len]. congruence.
  - assert (Hnext : forall k, is_proto_key k = true ->
                    lookup k (push_group acc (key y) y) = None).
    { intros k Hpk. rewrite lookup_push_group.
      destruct (String.eqb_spec k (key y)) as [->|_]; [congruence | exact (Hacc k Hpk)]. }
    assert (Hx' : In x r) by (destruct Hx as [->|Hx]; [congruence | exact Hx]).
    destruct (js_get (key y) acc) eqn:E.
    + exact (IH _ x Hx' Hk Hnext).
    + exfalso. assert (H : is_proto_key (key y) = true)
        by (apply (js_get_inherited _ acc); right; eexists; exact E). congruence.
    + exfalso. assert (H : is_proto_key (key y) = true)
        by (apply (js_get_inherited _ acc); left; exact E). congruence.
    + exact (IH _ x Hx' Hk Hnext).
Qed.

Lemma js_group_by_ok {A} (key : A -> string) (l : list A) :
  (forall x, In x l -> is_proto_key (key x) = false) ->
  js_group_by key l = Returned (group_by key l) /\ partitions key l (group_by key l).
Proof.
  intros Hl. split; [exact (js_group_from_ok key l [] Hl) | apply group_by_partitions].
Qed.

Lemma js_group_by_throws {A} (key : A -> string) (l : list A) (x : A) :
  In x l -> is_proto_key (key x) = true -> js_group_by key l = Thrown TypeError.
Proof. intros Hx Hk. exact (js_group_from_throws key l [] x Hx Hk (fun _ _ => eq_refl)). Qed.

Lemma Z_to_string_head (n : Z) :
  exists c r, Z_to_string n = String c r /\ (is_digit c = true \/ c = "-"%char).
Proof.
  unfold Z_to_string. destruct (n <? 0).
  - eexists _, _. split; [reflexivity | right; reflexivity].
  - destruct (decimal_digits_head (Z.to_nat (Z.log2 n)) n ""%string) as (c & r & -> & Hc).
    exists c, r. auto.
Qed.

Lemma getQualityLabel_head (f : VideoFormat) :
  exists c r, getQualityLabel f = String c r /\ (is_digit c = true \/ c = "-"%char \/ c = "u"%char).
Proof.
  unfold getQualityLabel, js_num.
  destruct (truthy_num (VideoFormat.height f)).
  - destruct (VideoFormat.height f) as [h|].
    + destruct (Z_to_string_head h) as (c & r & -> & Hc). exists c. eexists. split; [reflexivity|].
      destruct Hc; auto.
    + eexists _, _. split; [reflexivity | right; right; reflexivity].
  - destruct (VideoFormat.width f) as [w|].
    + destruct (Z_to_string_head w) as (c & r & -> & Hc). exists c. eexists. split; [reflexivity|].
      destruct Hc; auto.
    + eexists _, _. split; [reflexivity | right; right; reflexivity].
Qed.

Lemma proto_key_head (k : string) :
  is_proto_key k = true ->
  exists c r, k = String c r /\ In c ["c"; "_"; "h"; "i"; "p"; "t"; "v"]%char.
Proof.
  unfold is_proto_key. cbn [existsb object_prototype_functions]. intros H.
  repeat (apply orb_true_iff in H as [H|H]); try discriminate H;
    apply String.eqb_eq in H; subst k; eexists _, _; (split; [reflexivity | cbn; tauto]).
Qed.

Lemma getQualityLabel_not_proto (f : VideoFormat) : is_proto_key (getQualityLabel f) = false.
Proof.
  destruct (is_proto_key (getQualityLabel f)) eqn:E; [exfalso|reflexivity].
  destruct (proto_key_head _ E) as (c & r & Hk & Hc).
  destruct (getQualityLabel_head f) as (c' & r' & Hl & Hc').
  rewrite Hl in Hk. injection Hk as <- _.
  cbn in Hc. repeat destruct Hc as [<-|Hc]; try contradiction;
    destruct Hc' as [H|[H|H]]; discriminate H.
Qed.

(** The groupings reduce into a plain object [{}]. When no label of the
    list is a key inherited from [Object.prototype] ([constructor],
    [toString], [__proto__], ...), the reduce returns the dictionary of the
    model, and that dictionary splits its input: no group is empty, keys
    are distinct, each group holds only formats of its key, every format is
    in the group of its key, and the groups hold the input up to order.
    When some label is such a key, the reduce throws a [TypeError]
    ([acc[k]] is inherited and has no [push]). This holds for the quality
    and language groups of the first [VideoInfoCard], for any labelling,
    and for the language groups of the third card (lines 1144-1157), whose
    groups are then sorted; the first card's [getQualityLabel] never gives
    such a key, so its quality grouping always succeeds. *)
Theorem format_groups_partition :
  (forall (label : VideoFormat -> string) video_formats,
     (forall f, In f (sortedVideoFormats video_formats) -> is_proto_key (label f) = false) ->
     js_group_by label (sortedVideoFormats video_formats)
       = Returned (groupedVideoFormats label video_formats) /\
     partitions label (sortedVideoFormats video_formats) (groupedVideoFormats label video_formats)) /\
  (forall (label : VideoFormat -> string) video_formats f,
     In f (sortedVideoFormats video_formats) -> is_proto_key (label f) = true ->
     js_group_by label (sortedVideoFormats video_formats) = Thrown TypeError) /\
  (forall f, is_proto_key (getQualityLabel f) = false) /\
  (forall (label : AudioFormat -> string) audio_formats,
     (forall f, In f (sortedAudioFormats audio_formats) -> is_proto_key (label f) = false) ->
     js_group_by label (sortedAudioFormats audio_formats)
       = Returned (groupedAudioFormats label audio_formats) /\
     partitions label (sortedAudioFormats audio_formats) (groupedAudioFormats label audio_formats)) /\
  (forall (label : AudioFormat -> string) audio_formats f,
     In f (sortedAudioFormats audio_formats) -> is_proto_key (label f) = true ->
     js_group_by label (sortedAudioFormats audio_formats) = Thrown TypeError) /\
  (forall audio_formats,
     (forall f, In f audio_formats -> is_proto_key (language_key f) = false) ->
     js_group_by language_key audio_formats = Returned (group_by language_key audio_formats) /\
     groupedAudioFormats_by_language audio_formats
       = map (fun '(language, fs) => (language, js_sort abr_cmp fs)) (group_by language_key audio_formats) /\
     partitions language_key audio_formats (groupedAudioFormats_by_language audio_formats)) /\
  (forall audio_formats f,
     In f audio_formats -> is_proto_key (language_key f) = true ->
     js_group_by language_key audio_formats = Thrown TypeError).
Proof.
  split; [|split; [|split; [|split; [|split; [|split]]]]].
  - intros label vf H. exact (js_group_by_ok label _ H).
  - intros label vf f Hf Hk. exact (js_group_by_throws label _ f Hf Hk).
  - exact getQualityLabel_not_proto.
  - intros label af H. exact (js_group_by_ok label _ H).
  - intros label af f Hf Hk. exact (js_group_by_throws label _ f Hf Hk).
  - intros af H. split; [exact (proj1 (js_group_by_ok language_key af H))|].
    split; [reflexivity|]. apply sort_groups_partitions, group_by_partitions.
  - intros af f Hf Hk. exact (js_group_by_throws language_key af f Hf Hk).
Qed.

(** ** Facts about the format picked from a group *)

Lemma getSelectedFormatFromGroup_cases {A} (format_id : A -> string)
  (grouped : list (string * list A)) (selected : option A) (key : string) (g : list A) :
  lookup key grouped = Some g -> g <> [] ->
  exists f, getSelectedFormatFromGroup format_id grouped selected key = Returned (Some f) /\ In f g /\
    ((exists s x, selected = Some s /\ In x g /\ format_id x = format_id s) ->
       exists s, selected = Some s /\ format_id f = format_id s) /\
    (~ (exists s x, selected = Some s /\ In x g /\ format_id x = format_id s) ->
       exists rest, g = f :: rest).
Proof.
  intros Hg Hne. unfold getSelectedFormatFromGroup, js_get. rewrite Hg.
  destruct g as [|f0 rest]; [contradiction|].
  set (p := fun f => match selected with
                     | Some s => String.eqb (format_id f) (format_id s)
                     | None => false
                     end).
  destruct (find p (f0 :: rest)) as [f|] eqn:E.
  - apply find_some in E as [Hin Hp]. exists f. split; [reflexivity|]. split; [exact Hin|].
    unfold p in Hp. destruct selected as [s|]; [|discriminate Hp].
    apply String.eqb_eq in Hp. split.
    + intros _. exists s. split; [reflexivity | exact Hp].
    + intros Hnot. exfalso. apply Hnot. exists s, f. auto.
  - exists f0. split; [reflexivity|]. split; [left; reflexivity|]. split.
    + intros (s & x & -> & Hx & Hid). exfalso.
      pose proof (find_none _ _ E x Hx) as Hf. unfold p in Hf.
      rewrite Hid, String.eqb_refl in Hf. discriminate Hf.
    + intros _. exists rest. reflexivity.
Qed.

Lemma video_cmp_trans (a b c : VideoFormat) :
  video_cmp a b <= 0 -> video_cmp b c <= 0 -> video_cmp a c <= 0.
Proof.
  unfold video_cmp.
  set (ha := or_num (VideoFormat.height a) 0). set (hb := or_num (VideoFormat.height b) 0).
  set (hc := or_num (VideoFormat.height c) 0).
  set (ta := or_num (VideoFormat.tbr a) 0). set (tb := or_num (VideoFormat.tbr b) 0).
  set (tc := or_num (VideoFormat.tbr c) 0).
  destruct (Z.eqb_spec (hb - ha) 0), (Z.eqb_spec (hc - hb) 0), (Z.eqb_spec (hc - ha) 0);
    cbn [negb]; lia.
Qed.

Lemma sortedVideoFormats_strongly (video_formats : list VideoFormat) :
  StronglySorted (fun a b => video_cmp a b <= 0) (sortedVideoFormats video_formats).
Proof.
  apply Sorted_StronglySorted; [intros a b c; apply video_cmp_trans|].
  exact (js_sort_sorted video_cmp video_cmp_antisym _).
Qed.

Lemma sortedAudioFormats_strongly (audio_formats : list AudioFormat) :
  StronglySorted (fun a b => audio_bitrate a >= audio_bitrate b) (sortedAudioFormats audio_formats).
Proof.
  apply Sorted_StronglySorted; [intros a b c; lia|].
  refine (Sorted_weaken _ _ _ _ (js_sort_sorted audio_cmp audio_cmp_antisym _)).
  intros x y Hxy. unfold audio_cmp in Hxy.
  destruct (Z.eqb_spec (audio_bitrate y - audio_bitrate x) 0); cbn [negb] in Hxy; lia.
Qed.

Lemma StronglySorted_head_all {A} (R : A -> A -> Prop) (f : A) (rest : list A) (x : A) :
  (forall a, R a a) -> StronglySorted R (f :: rest) -> In x (f :: rest) -> R f x.
Proof.
  intros Hrefl Hs [<-|Hx]; [apply Hrefl|].
  apply StronglySorted_inv in Hs as [_ Hall]. rewrite Forall_forall in Hall. exact (Hall x Hx).
Qed.

Lemma getSelectedFormatFromGroup_absent {A} (format_id : A -> string)
  (grouped : list (string * list A)) (selected : option A) (key : string) :
  is_proto_key key = false -> lookup key grouped = None ->
  getSelectedFormatFromGroup format_id grouped selected key = Returned None.
Proof.
  intros Hk Hl. unfold getSelectedFormatFromGroup. rewrite (js_get_not_proto key grouped Hk Hl).
  reflexivity.
Qed.

Lemma getSelectedFormatFromGroup_inherited {A} (format_id : A -> string)
  (grouped : list (string * list A)) (selected : option A) (key : string) :
  is_proto_key key = true -> lookup key grouped = None ->
  getSelectedFormatFromGroup format_id grouped selected key
    = if existsb (String.eqb key) ["toString"; "valueOf"; "toLocaleString"]%string
      then Returned None else Thrown TypeError.
Proof.
  unfold is_proto_key. cbn [existsb object_prototype_functions]. intros H Hl.
  unfold getSelectedFormatFromGroup, js_get. rewrite Hl.
  repeat (apply orb_true_iff in H as [H|H]); try discriminate H;
    apply String.eqb_eq in H; subst key; reflexivity.
Qed.

Lemma lookup_group_by_key {A} (key : A -> string) (l : list A) (k : string) (g : list A) :
  lookup k (group_by key l) = Some g -> exists x, In x g /\ key x = k.
Proof.
  intros Hg.
  destruct (proj1 (proj2 (proj2 (group_by_partitions key l))) k g Hg) as [Hne Hall].
  destruct g as [|x r]; [congruence|]. exists x. split; [left; reflexivity|].
  exact (Forall_inv Hall).
Qed.

(** [getSelectedVideoFormatFromGroup] with the card's [getQualityLabel]
    reads [groupedVideoFormats[quality]] on a plain object. For a quality
    with no group it returns [null], unless the quality names a property
    inherited from [Object.prototype]: then it returns [null] for the
    functions of length 0 ([toString], [valueOf], [toLocaleString]) and
    throws a [TypeError] for the others ([formats.find] is undefined). For
    a quality with a group it returns a format of the group: the selected
    one when the selection is in the group, and else the group's first,
    which has the highest bitrate of the group. *)
Theorem selected_video_format_from_group (video_formats : list VideoFormat)
  (selected : option VideoFormat) (quality : string) :
  (is_proto_key quality = false ->
   lookup quality (groupedVideoFormats getQualityLabel video_formats) = None ->
   getSelectedVideoFormatFromGroup getQualityLabel video_formats selected quality = Returned None) /\
  (forall g, lookup quality (groupedVideoFormats getQualityLabel video_formats) = Some g ->
   exists f, getSelectedVideoFormatFromGroup getQualityLabel video_formats selected quality
               = Returned (Some f) /\
     In f g /\
     ((exists s x, selected = Some s /\ In x g /\ VideoFormat.format_id x = VideoFormat.format_id s) ->
        exists s, selected = Some s /\ VideoFormat.format_id f = VideoFormat.format_id s) /\
     (~ (exists s x, selected = Some s /\ In x g /\ VideoFormat.format_id x = VideoFormat.format_id s) ->
        forall x, In x g -> VideoFormat.height x = VideoFormat.height f /\
                            or_num (VideoFormat.tbr x) 0 <= or_num (VideoFormat.tbr f) 0)) /\
  (is_proto_key quality = true ->
   getSelectedVideoFormatFromGroup getQualityLabel video_formats selected quality
     = if existsb (String.eqb quality) ["toString"; "valueOf"; "toLocaleString"]%string
       then Returned None else Thrown TypeError).
Proof.
  split; [|split].
  - intros Hk H. unfold getSelectedVideoFormatFromGroup. exact (getSelectedFormatFromGroup_absent _ _ _ _ Hk H).
  - intros g Hg.
    destruct (proj1 (proj2 (proj2 (group_by_partitions getQualityLabel (sortedVideoFormats video_formats))))
                quality g Hg) as [Hne _].
    destruct (getSelectedFormatFromGroup_cases VideoFormat.format_id _ selected quality g Hg Hne)
      as (f & Hf & Hin & Hsel & Hdef).
    exists f. split; [exact Hf|]. split; [exact Hin|]. split; [exact Hsel|].
    intros Hnot x Hx. destruct (Hdef Hnot) as [rest ->].
    destruct (In_quality_group _ _ _ _ Hg Hx) as [Ux Lx].
    destruct (In_quality_group _ _ _ _ Hg Hin) as [Uf Lf].
    apply andb_prop in Ux, Uf.
    destruct (same_quality_label x f (proj1 Ux) (proj1 Uf) ltac:(congruence)) as [Hh _].
    split; [exact Hh|].
    assert (Hs : StronglySorted (fun a b => video_cmp a b <= 0) (f :: rest)).
    { unfold groupedVideoFormats in Hg. rewrite (lookup_group_by _ _ _ _ Hg).
      apply StronglySorted_filter, sortedVideoFormats_strongly. }
    pose proof (StronglySorted_head_all (fun a b => video_cmp a b <= 0) f rest x ltac:(intros a; cbv beta; unfold video_cmp; rewrite !Z.sub_diag; cbn [Z.eqb negb]; lia) Hs Hx) as Hc.
    unfold video_cmp in Hc. rewrite Hh, Z.sub_diag in Hc. cbn [Z.eqb negb] in Hc. lia.
  - intros Hk. unfold getSelectedVideoFormatFromGroup. apply getSelectedFormatFromGroup_inherited; [exact Hk|].
    destruct (lookup quality (groupedVideoFormats getQualityLabel video_formats)) as [g|] eqn:Hg;
      [exfalso | reflexivity].
    destruct (lookup_group_by_key _ _ _ _ Hg) as (x & _ & Hx).
    pose proof (getQualityLabel_not_proto x) as Hn. congruence.
Qed.

(** [getSelectedAudioFormatFromGroup], for a language labelling under which
    the card's grouping returns (no label is a property inherited from
    [Object.prototype]; otherwise the card throws before this is called):
    for a language with no group it returns [null], unless the language
    names an inherited property: then it returns [null] for [toString],
    [valueOf] and [toLocaleString] and throws a [TypeError] for the others.
    For a language with a group it returns a format of the group: the
    selected one when the selection is in the group, and else the group's
    first, which has the highest bitrate ([abr || tbr || 0]) of the group. *)
Theorem selected_audio_format_from_group (getLanguageDisplay : AudioFormat -> string)
  (audio_formats : list AudioFormat) (selected : option AudioFormat) (language : string)
  (Hrender : forall f, In f (sortedAudioFormats audio_formats) -> is_proto_key (getLanguageDisplay f) = false) :
  (is_proto_key language = false ->
   lookup language (groupedAudioFormats getLanguageDisplay audio_formats) = None ->
   getSelectedAudioFormatFromGroup getLanguageDisplay audio_formats selected language = Returned None) /\
  (forall g, lookup language (groupedAudioFormats getLanguageDisplay audio_formats) = Some g ->
   exists f, getSelectedAudioFormatFromGroup getLanguageDisplay audio_formats selected language
               = Returned (Some f) /\
     In f g /\
     ((exists s x, selected = Some s /\ In x g /\ AudioFormat.format_id x = AudioFormat.format_id s) ->
        exists s, selected = Some s /\ AudioFormat.format_id f = AudioFormat.format_id s) /\
     (~ (exists s x, selected = Some s /\ In x g /\ AudioFormat.format_id x = AudioFormat.format_id s) ->
        forall x, In x g -> audio_bitrate x <= audio_bitrate f)) /\
  (is_proto_key language = true ->
   getSelectedAudioFormatFromGroup getLanguageDisplay audio_formats selected language
     = if existsb (String.eqb language) ["toString"; "valueOf"; "toLocaleString"]%string
       then Returned None else Thrown TypeError).
Proof.
  split; [|split].
  - intros Hk H. unfold getSelectedAudioFormatFromGroup. exact (getSelectedFormatFromGroup_absent _ _ _ _ Hk H).
  - intros g Hg.
    destruct (proj1 (proj2 (proj2 (group_by_partitions getLanguageDisplay (sortedAudioFormats audio_formats))))
                language g Hg) as [Hne _].
    destruct (getSelectedFormatFromGroup_cases AudioFormat.format_id _ selected language g Hg Hne)
      as (f & Hf & Hin & Hsel & Hdef).
    exists f. split; [exact Hf|]. split; [exact Hin|]. split; [exact Hsel|].
    intros Hnot x Hx. destruct (Hdef Hnot) as [rest ->].
    assert (Hs : StronglySorted (fun a b => audio_bitrate a >= audio_bitrate b) (f :: rest)).
    { unfold groupedAudioFormats in Hg. rewrite (lookup_group_by _ _ _ _ Hg).
      apply StronglySorted_filter, sortedAudioFormats_strongly. }
    pose proof (StronglySorted_head_all (fun a b => audio_bitrate a >= audio_bitrate b) f rest x ltac:(intros a; cbv beta; lia) Hs Hx) as Hb. cbv beta in Hb. lia.
  - intros Hk. unfold getSelectedAudioFormatFromGroup. apply getSelectedFormatFromGroup_inherited; [exact Hk|].
    destruct (lookup language (groupedAudioFormats getLanguageDisplay audio_formats)) as [g|] eqn:Hg;
      [exfalso | reflexivity].
    destruct (proj1 (proj2 (proj2 (group_by_partitions getLanguageDisplay (sortedAudioFormats audio_formats))))
                language g Hg) as [Hne Hall].
    destruct (lookup_group_by_key _ _ _ _ Hg) as (x & Hxg & Hx).
    assert (Hxl : In x (sortedAudioFormats audio_formats)).
    { apply (Permutation_in _ (proj1 (group_by_partitions getLanguageDisplay (sortedAudioFormats audio_formats)))).
      apply in_concat. exists g. split; [|exact Hxg].
      apply in_map_iff. exists (language, g). split; [reflexivity|].
      exact (lookup_In_pair _ _ _ Hg). }
    pose proof (Hrender x Hxl) as Hn. congruence.
Qed.

(** ** Facts about the request functions *)

Lemma append_nonempty_r (s t : string) : t <> ""%string -> (s ++ t)%string <> ""%string.
Proof. destruct s; cbn; [tauto | discriminate]. Qed.

Lemma or_str_nonempty (o : option string) (d : string) : d <> ""%string -> or_str o d <> ""%string.
Proof.
  intros Hd. destruct o as [x|]; cbn; [|exact Hd].
  destruct (String.eqb_spec x ""); [exact Hd | exact n].
Qed.

Ltac split_ifs :=
  repeat match goal with |- context [if ?b then _ else _] => destruct b end.

Ltac error_message_nonempty :=
  eexists; split; [reflexivity|];
  repeat first [ discriminate
               | apply append_nonempty_r
               | apply or_str_nonempty
               | unfold throttle_message ].

(** Each request function of [api] returns the parsed body exactly when the
    HTTP status is 2xx; for any other status it throws an [Error] whose
    message is not empty. *)
Theorem api_requests_outcome {A} (r : Response A) :
  (response_ok r = true ->
   getVideoInfo r = Returned (ok_body r) /\ startDirectDownload r = Returned (ok_body r) /\
   startServerDownload r = Returned (ok_body r) /\ getDownloadStatus r = Returned (ok_body r) /\
   getDownloadedFiles r = Returned (ok_body r)) /\
  (response_ok r = false ->
   (exists m, getVideoInfo r = Thrown (ErrorMsg m) /\ m <> ""%string) /\
   (exists m, startDirectDownload r = Thrown (ErrorMsg m) /\ m <> ""%string) /\
   (exists m, startServerDownload r = Thrown (ErrorMsg m) /\ m <> ""%string) /\
   (exists m, getDownloadStatus r = Thrown (ErrorMsg m) /\ m <> ""%string) /\
   (exists m, getDownloadedFiles r = Thrown (ErrorMsg m) /\ m <> ""%string)).
Proof.
  unfold getVideoInfo, startDirectDownload, startServerDownload, getDownloadStatus,
    getDownloadedFiles.
  split; intros Hok; rewrite Hok; [repeat split|].
  repeat split; split_ifs; error_message_nonempty.
Qed.

(** ** Facts about [formatDuration] and [formatDate] *)

Lemma pad_start2_two_digits (d : Z) : 0 <= d < 60 -> pad_start2 (Z_to_string d) = two_digits d.
Proof.
  intros Hd.
  assert (Hall : forallb (fun n => String.eqb (pad_start2 (Z_to_string (Z.of_nat n)))
                                              (two_digits (Z.of_nat n))) (seq 0 60) = true)
    by (vm_compute; reflexivity).
  rewrite forallb_forall in Hall.
  specialize (Hall (Z.to_nat d) ltac:(apply in_seq; lia)).
  rewrite Z2Nat.id in Hall by lia. apply String.eqb_eq. exact Hall.
Qed.

(** [formatDuration] on a non-negative whole number of seconds writes
    hours (when there is at least one), minutes and seconds, the minutes
    (after hours) and the seconds always as two digits, and these fields
    give back the duration. *)
Theorem formatDuration_fields (seconds : Z) :
  (0 <= seconds)%Z ->
  let h := (seconds / 3600)%Z in
  let m := (seconds mod 3600 / 60)%Z in
  let s := (seconds mod 60)%Z in
  (seconds = 3600 * h + 60 * m + s /\ 0 <= m < 60 /\ 0 <= s < 60)%Z /\
  formatDuration seconds =
    (if (0 <? h)%Z then Z_to_string h ++ ":" ++ two_digits m ++ ":" ++ two_digits s
     else Z_to_string m ++ ":" ++ two_digits s)%string.
Proof.
  intros Hs. cbv zeta.
  assert (Hm : 0 <= seconds mod 3600 / 60 < 60) by zdm.
  assert (Hsec : 0 <= seconds mod 60 < 60) by zdm.
  split; [split; [zdm | split; assumption]|].
  unfold formatDuration. cbv zeta.
  rewrite !Z.rem_mod_nonneg by lia.
  rewrite !(pad_start2_two_digits _ Hsec), (pad_start2_two_digits _ Hm).
  rewrite Z.gtb_ltb. reflexivity.
Qed.

Lemma firstn_add_skipn {A} (a b : nat) (l : list A) :
  firstn (a + b) l = firstn a l ++ firstn b (skipn a l).
Proof.
  revert l. induction a as [|a IH]; intros l; [reflexivity|].
  destruct l as [|x l]; cbn [firstn skipn app Nat.add].
  - destruct b; reflexivity.
  - f_equal. apply IH.
Qed.

(** [formatDate] shows ["Unknown"] for an empty string; otherwise it
    writes the first eight code units as [YYYY-MM-DD], dropping the rest,
    and a shorter string gets the same two dashes with shorter (possibly
    empty) fields. *)
Theorem formatDate_fields (dateString : jsstring) :
  (dateString = [] -> formatDate dateString = units_of_string "Unknown") /\
  (dateString <> [] ->
   exists year month day,
     year ++ month ++ day = firstn 8 dateString /\
     formatDate dateString = year ++ [45] ++ month ++ [45] ++ day /\
     length year = Nat.min 4 (length dateString) /\
     length month = Nat.min 2 (length dateString - 4) /\
     length day = Nat.min 2 (length dateString - 6)).
Proof.
  split; [intros ->; reflexivity|].
  intros Hne. exists (firstn 4 dateString), (firstn 2 (skipn 4 dateString)),
                     (firstn 2 (skipn 6 dateString)).
  split; [|split; [|split; [|split]]].
  - change (firstn 8 dateString) with (firstn (4 + 4) dateString).
    rewrite (firstn_add_skipn 4 4 dateString).
    change (firstn 4 (skipn 4 dateString)) with (firstn (2 + 2) (skipn 4 dateString)).
    rewrite (firstn_add_skipn 2 2 (skipn 4 dateString)), skipn_skipn.
    reflexivity.
  - destruct dateString as [|c rest]; [contradiction|]. reflexivity.
  - apply length_firstn.
  - rewrite length_firstn, length_skipn. reflexivity.
  - rewrite length_firstn, length_skipn. reflexivity.
Qed.

(** ** Facts about [ProgressBar] *)

Lemma progress_ticks (b : ProgressBar.ProgressBar) (rs : list Q) :
  ProgressBar.interval_on b = true -> (30 <= ProgressBar.progress b <= 90)%Q ->
  Forall (fun r => 0 <= r)%Q rs ->
  Forall (fun p => 30 <= p <= 90)%Q (ProgressBar.shown b (map ProgressBar.Tick rs)) /\
  Sorted Qle (ProgressBar.progress b :: ProgressBar.shown b (map ProgressBar.Tick rs)).
Proof.
  revert b. induction rs as [|r rs IH]; intros b Hon Hp Hr; cbn [map ProgressBar.shown].
  - split; constructor; constructor.
  - inversion Hr as [|? ? Hr0 Hrs]; subst. cbv beta in Hr0.
    set (b' := {| ProgressBar.status := ProgressBar.status b;
                  ProgressBar.progress := Qmin (ProgressBar.progress b + r * 10) 90;
                  ProgressBar.interval_on := true |}).
    assert (Ht : ProgressBar.step b (ProgressBar.Tick r) = b')
      by (cbn [ProgressBar.step]; unfold ProgressBar.tick; rewrite Hon; reflexivity).
    rewrite Ht.
    cbn [ProgressBar.progress].
    assert (Hb' : (ProgressBar.progress b <= Qmin (ProgressBar.progress b + r * 10) 90 <= 90)%Q).
    { destruct (Q.min_spec (ProgressBar.progress b + r * 10) 90) as [[H1 H2]|[H1 H2]];
        rewrite H2; split; lra. }
    assert (Hp' : (30 <= ProgressBar.progress b' <= 90)%Q) by (unfold b'; cbn [ProgressBar.progress]; lra).
    destruct (IH b' eq_refl Hp' Hrs) as [Hall Hs].
    split.
    + constructor; [lra | exact Hall].
    + constructor; [exact Hs|]. constructor. exact (proj1 Hb').
Qed.

(** While a task is downloading, the progress bar starts at 30, and with
    [Math.random()] never negative, each firing of the interval keeps it
    between 30 and 90 and never lowers it. *)
Theorem progress_bar_downloading (b : ProgressBar.ProgressBar) (rs : list Q) :
  ProgressBar.status b <> "downloading"%string -> Forall (fun r => 0 <= r)%Q rs ->
  let b1 := ProgressBar.set_status "downloading" b in
  ProgressBar.progress b1 = 30%Q /\
  Forall (fun p => 30 <= p <= 90)%Q (ProgressBar.shown b1 (map ProgressBar.Tick rs)) /\
  Sorted Qle (ProgressBar.progress b1 :: ProgressBar.shown b1 (map ProgressBar.Tick rs)).
Proof.
  intros Hst Hr. cbv zeta.
  assert (Hb1 : ProgressBar.set_status "downloading" b
                = {| ProgressBar.status := "downloading"; ProgressBar.progress := 30;
                     ProgressBar.interval_on := true |}).
  { unfold ProgressBar.set_status. destruct (String.eqb_spec "downloading" (ProgressBar.status b)).
    - exfalso. apply Hst. symmetry. assumption.
    - reflexivity. }
  rewrite Hb1. split; [reflexivity|].
  apply progress_ticks; [reflexivity | cbn; lra | exact Hr].
Qed.

Lemma quality_group_same_height_fps_witness :
  lookup "720p@30fps"%string (groupedVideoFormats getQualityLabel sample_video_formats)
    = Some [video_720_high; video_720_low] /\
  VideoFormat.height video_720_high = VideoFormat.height video_720_low /\
  or_num (VideoFormat.fps video_720_high) 0 = or_num (VideoFormat.fps video_720_low) 0.
Proof.
  assert (H : lookup "720p@30fps"%string (groupedVideoFormats getQualityLabel sample_video_formats)
              = Some [video_720_high; video_720_low]) by (vm_compute; reflexivity).
  split; [exact H|].
  exact (quality_group_same_height_fps sample_video_formats "720p@30fps" _ video_720_high video_720_low
           H (or_introl eq_refl) (or_intror (or_introl eq_refl))).
Defined.

Lemma selected_video_format_from_group_witness :
  lookup "720p@30fps"%string (groupedVideoFormats getQualityLabel sample_video_formats)
    = Some [video_720_high; video_720_low] /\
  (exists f, getSelectedVideoFormatFromGroup getQualityLabel sample_video_formats (Some video_720_low)
               "720p@30fps"%string = Returned (Some f) /\
    In f [video_720_high; video_720_low] /\ VideoFormat.format_id f = "136"%string) /\
  getSelectedVideoFormatFromGroup getQualityLabel sample_video_formats None "480p"%string = Returned None /\
  getSelectedVideoFormatFromGroup getQualityLabel sample_video_formats None "constructor"%string
    = Thrown TypeError /\
  getSelectedVideoFormatFromGroup getQualityLabel sample_video_formats None "toString"%string
    = Returned None.
Proof.
  assert (H : lookup "720p@30fps"%string (groupedVideoFormats getQualityLabel sample_video_formats)
              = Some [video_720_high; video_720_low]) by (vm_compute; reflexivity).
  split; [exact H|]. split.
  - destruct (proj1 (proj2 (selected_video_format_from_group sample_video_formats (Some video_720_low)
                       "720p@30fps"%string)) _ H) as (f & Hf & Hin & Hsel & _).
    destruct (Hsel (ex_intro _ video_720_low (ex_intro _ video_720_low
                     (conj eq_refl (conj (or_intror (or_introl eq_refl)) eq_refl)))))
      as (s & Hs & Hid).
    injection Hs as <-.
    exists f. split; [exact Hf|]. split; [exact Hin|]. exact Hid.
  - split; [apply (proj1 (selected_video_format_from_group sample_video_formats None "480p"%string));
            vm_compute; reflexivity|].
    split; [exact (proj2 (proj2 (selected_video_format_from_group sample_video_formats None
                                   "constructor"%string)) eq_refl)|].
    exact (proj2 (proj2 (selected_video_format_from_group sample_video_formats None
                           "toString"%string)) eq_refl).
Defined.

Lemma selected_audio_format_from_group_witness :
  (forall f, In f (sortedAudioFormats sample_audio_formats) -> is_proto_key (sample_language f) = false) /\
  lookup "en"%string (groupedAudioFormats sample_language sample_audio_formats)
    = Some [audio_en_high; audio_en_low] /\
  (exists f, getSelectedAudioFormatFromGroup sample_language sample_audio_formats None "en"%string
               = Returned (Some f) /\
    In f [audio_en_high; audio_en_low] /\
    audio_bitrate audio_en_low <= audio_bitrate f) /\
  getSelectedAudioFormatFromGroup sample_language sample_audio_formats None "fr"%string = Returned None /\
  getSelectedAudioFormatFromGroup sample_language sample_audio_formats None "__proto__"%string
    = Thrown TypeError.
Proof.
  assert (Hr : forall f, In f (sortedAudioFormats sample_audio_formats) ->
                         is_proto_key (sample_language f) = false).
  { intros f Hf. vm_compute in Hf.
    repeat (destruct Hf as [<-|Hf]; [vm_compute; reflexivity|]). contradiction. }
  assert (H : lookup "en"%string (groupedAudioFormats sample_language sample_audio_formats)
              = Some [audio_en_high; audio_en_low])
    by (vm_compute; reflexivity).
  split; [exact Hr|]. split; [exact H|]. split.
  - destruct (proj1 (proj2 (selected_audio_format_from_group sample_language sample_audio_formats None
                       "en"%string Hr)) _ H) as (f & Hf & Hin & _ & Hdef).
    exists f. split; [exact Hf|]. split; [exact Hin|].
    apply Hdef; [intros (s & x & Hs & _); discriminate | right; left; reflexivity].
  - split; [apply (proj1 (selected_audio_format_from_group sample_language sample_audio_formats None
                            "fr"%string Hr)); vm_compute; reflexivity|].
    exact (proj2 (proj2 (selected_audio_format_from_group sample_language sample_audio_formats None
                           "__proto__"%string Hr)) eq_refl).
Defined.

Lemma format_groups_partition_witness :
  js_group_by getQualityLabel (sortedVideoFormats sample_video_formats)
    = Returned (groupedVideoFormats getQualityLabel sample_video_formats) /\
  js_group_by sample_language (sortedAudioFormats sample_audio_formats)
    = Returned (groupedAudioFormats sample_language sample_audio_formats) /\
  js_group_by sample_language (sortedAudioFormats (audio_constructor :: sample_audio_formats))
    = Thrown TypeError /\
  js_group_by language_key sample_audio_formats = Returned (group_by language_key sample_audio_formats) /\
  js_group_by language_key (audio_constructor :: sample_audio_formats) = Thrown TypeError.
Proof.
  pose proof format_groups_partition as (Hv & _ & Hq & Ha & Hat & Hl & Hlt).
  assert (Hr : forall f, In f (sortedAudioFormats sample_audio_formats) ->
                         is_proto_key (sample_language f) = false).
  { intros f Hf. vm_compute in Hf.
    repeat (destruct Hf as [<-|Hf]; [vm_compute; reflexivity|]). contradiction. }
  assert (Hs : forall f, In f sample_audio_formats -> is_proto_key (language_key f) = false).
  { intros f Hf. unfold sample_audio_formats in Hf. cbn [In] in Hf.
    repeat (destruct Hf as [<-|Hf]; [vm_compute; reflexivity|]). contradiction. }
  split; [exact (proj1 (Hv getQualityLabel sample_video_formats (fun f _ => Hq f)))|].
  split; [exact (proj1 (Ha sample_language sample_audio_formats Hr))|].
  split; [apply (Hat sample_language _ audio_constructor); [vm_compute; tauto | vm_compute; reflexivity]|].
  split; [exact (proj1 (Hl sample_audio_formats Hs))|].
  exact (Hlt (audio_constructor :: sample_audio_formats) audio_constructor (or_introl eq_refl) eq_refl).
Defined.

Lemma api_requests_outcome_witness :
  response_ok webm_response = true /\
  startServerDownload webm_response = Returned (ok_body webm_response) /\
  response_ok throttled_response = false /\
  exists m, getDownloadStatus throttled_response = Thrown (ErrorMsg m) /\ m <> ""%string.
Proof.
  split; [reflexivity|].
  split; [exact (proj1 (proj2 (proj2 (proj1 (api_requests_outcome webm_response) eq_refl))))|].
  split; [reflexivity|].
  exact (proj1 (proj2 (proj2 (proj2 (proj2 (api_requests_outcome throttled_response) eq_refl))))).
Defined.

Lemma formatDuration_fields_witness :
  0 <= 3725 /\ formatDuration 3725 = "1:02:05"%string.
Proof.
  split; [lia|].
  destruct (formatDuration_fields 3725 ltac:(lia)) as [_ H].
  rewrite H. vm_compute. reflexivity.
Defined.

Lemma formatDate_fields_witness :
  units_of_string "20091025" <> [] /\
  exists year month day,
    formatDate (units_of_string "20091025") = year ++ [45] ++ month ++ [45] ++ day /\
    length year = 4%nat /\ length month = 2%nat /\ length day = 2%nat.
Proof.
  assert (Hne : units_of_string "20091025" <> []) by discriminate.
  split; [exact Hne|].
  destruct (proj2 (formatDate_fields (units_of_string "20091025")) Hne)
    as (year & month & day & _ & Hf & Hy & Hm & Hd).
  exists year, month, day. split; [exact Hf|].
  rewrite Hy, Hm, Hd. split; [reflexivity | split; reflexivity].
Defined.

Lemma progress_bar_downloading_witness :
  ProgressBar.status (ProgressBar.mount "preparing") <> "downloading"%string /\
  Forall (fun r => 0 <= r)%Q [1#2; 1; 0]%Q /\
  Sorted Qle (ProgressBar.progress (ProgressBar.set_status "downloading" (ProgressBar.mount "preparing"))
              :: ProgressBar.shown (ProgressBar.set_status "downloading" (ProgressBar.mount "preparing"))
                   (map ProgressBar.Tick [1#2; 1; 0]%Q)).
Proof.
  assert (Hs : ProgressBar.status (ProgressBar.mount "preparing") <> "downloading"%string)
    by (vm_compute; discriminate).
  assert (Hr : Forall (fun r => 0 <= r)%Q [1#2; 1; 0]%Q) by (repeat constructor; cbv beta; lra).
  split; [exact Hs|]. split; [exact Hr|].
  exact (proj2 (proj2 (progress_bar_downloading (ProgressBar.mount "preparing") [1#2; 1; 0]%Q Hs Hr))).
Defined.

(** ** Facts about the task list of [Home] *)

Lemma opt_str_eqb_refl (a : option string) : opt_str_eqb a a = true.
Proof. destruct a; cbn; [apply String.eqb_refl | reflexivity]. Qed.

Lemma set_task_twice (id : option string) (s1 m1 s2 m2 : string) (t : DownloadTask) :
  (if opt_str_eqb (DownloadTask.task_id (if opt_str_eqb (DownloadTask.task_id t) id
                                          then with_status s1 m1 t else t)) id
   then with_status s2 m2 (if opt_str_eqb (DownloadTask.task_id t) id then with_status s1 m1 t else t)
   else (if opt_str_eqb (DownloadTask.task_id t) id then with_status s1 m1 t else t))
  = if opt_str_eqb (DownloadTask.task_id t) id then with_status s2 m2 (with_status s1 m1 t) else t.
Proof.
  destruct (opt_str_eqb (DownloadTask.task_id t) id) eqn:E; cbn [with_status DownloadTask.task_id];
    rewrite ?E; reflexivity.
Qed.

(** [startDirectDownload] of the [Home] page in app/page.tsx leaves the task
    list alone and shows a non-empty error for a blank URL or a failed
    answer. On success it adds one task in front, which ends [completed],
    and the timer's update also marks [completed] every earlier task with
    the same [task_id] (both [undefined] included); the other tasks stay
    as they were. *)
Theorem home_direct_download_tasks (url : string) (response : Response DirectData)
  (prev : list DownloadTask) :
  let res := home_startDirectDownload url response prev in
  let id := DirectData.download_id (ok_body response) in
  ((is_blank url = true \/ response_ok response = false) ->
   tasks_after_click res = prev /\ tasks_after_timer res = prev /\ home_error res <> ""%string) /\
  (is_blank url = false -> response_ok response = true ->
   home_error res = ""%string /\
   length (tasks_after_timer res) = S (length prev) /\
   (exists t0, hd_error (tasks_after_timer res) = Some t0 /\
      DownloadTask.task_id t0 = id /\ DownloadTask.status t0 = "completed"%string) /\
   (forall k t, nth_error prev k = Some t ->
      exists t', nth_error (tasks_after_timer res) (S k) = Some t' /\
        DownloadTask.task_id t' = DownloadTask.task_id t /\
        (opt_str_eqb (DownloadTask.task_id t) id = false -> t' = t) /\
        (opt_str_eqb (DownloadTask.task_id t) id = true -> DownloadTask.status t' = "completed"%string))).
Proof.
  cbv zeta. unfold home_startDirectDownload. split.
  - intros [Hb|Hok].
    + rewrite Hb. split; [reflexivity|]. split; [reflexivity|]. discriminate.
    + destruct (is_blank url).
      * split; [reflexivity|]. split; [reflexivity|]. discriminate.
      * rewrite Hok. cbn [negb home_error tasks_after_click tasks_after_timer].
        split; [reflexivity|]. split; [reflexivity|]. apply or_str_nonempty. discriminate.
  - intros Hb Hok. rewrite Hb, Hok. cbn [negb home_error tasks_after_timer].
    split; [reflexivity|].
    unfold set_task. rewrite map_map.
    split; [rewrite length_map; reflexivity|].
    split.
    + eexists. split; [reflexivity|].
      rewrite set_task_twice. cbn [directTask DownloadTask.task_id].
      rewrite opt_str_eqb_refl. split; reflexivity.
    + intros k t Hk. cbn [map nth_error]. rewrite nth_error_map, Hk. cbn [option_map].
      eexists. split; [reflexivity|]. rewrite set_task_twice.
      destruct (opt_str_eqb (DownloadTask.task_id t) _) eqn:E.
      * split; [reflexivity|]. split; [discriminate|]. reflexivity.
      * split; [reflexivity|]. split; [reflexivity|]. discriminate.
Qed.

Lemma home_direct_download_tasks_witness :
  is_blank sample_url = false /\ response_ok webm_response = true /\
  exists t0, hd_error (tasks_after_timer (home_startDirectDownload sample_url webm_response [])) = Some t0 /\
    DownloadTask.task_id t0 = Some "d42"%string /\ DownloadTask.status t0 = "completed"%string.
Proof.
  assert (Hb : is_blank sample_url = false) by reflexivity.
  assert (Hok : response_ok webm_response = true) by reflexivity.
  split; [exact Hb|]. split; [exact Hok|].
  exact (proj1 (proj2 (proj2 (proj2 (home_direct_download_tasks sample_url webm_response []) Hb Hok)))).
Defined.

(** ** Facts about [formatFileSize] *)

Lemma ln_le_pred (y : R) : (0 < y)%R -> (ln y <= y - 1)%R.
Proof.
  intros Hy. pose proof (exp_ineq1_le (ln y)) as H. rewrite (exp_ln y Hy) in H. Lra.lra.
Qed.

Lemma ln2_bounds : (0 < ln 2 <= 1)%R.
Proof.
  split.
  - rewrite <- ln_1. apply ln_increasing; Lra.lra.
  - pose proof (ln_le_pred 2 ltac:(Lra.lra)). Lra.lra.
Qed.

Lemma ln_pow2 (n : nat) (z : Z) : IZR z = (2 ^ n)%R -> ln (IZR z) = (INR n * ln 2)%R.
Proof. intros ->. apply ln_pow. Lra.lra. Qed.

Lemma ln_1024 : ln 1024 = (10 * ln 2)%R.
Proof.
  rewrite (ln_pow2 10 1024); [|rewrite pow_IZR; reflexivity]. cbn [INR]. Lra.lra.
Qed.

Lemma ln_2_40 : ln 1099511627776 = (40 * ln 2)%R.
Proof.
  rewrite (ln_pow2 40 1099511627776); [|rewrite pow_IZR; reflexivity].
  rewrite INR_IZR_INZ. cbn. Lra.lra.
Qed.

(** Below [2^40] the logarithm is at least [2^-40] short of [40 ln 2]. *)
Lemma ln_below_2_40 (x : R) : (0 < x <= 1099511627775)%R ->
  (ln x <= 40 * ln 2 - / 1099511627776)%R.
Proof.
  intros Hx. rewrite <- ln_2_40.
  assert (Hm : x = (1099511627776 * (x / 1099511627776))%R) by (field; Lra.lra).
  rewrite Hm at 1. rewrite ln_mult; [|Lra.lra | unfold Rdiv; apply Rmult_lt_0_compat; Lra.lra].
  pose proof (ln_le_pred (x / 1099511627776) ltac:(unfold Rdiv; apply Rmult_lt_0_compat; Lra.lra)).
  unfold Rdiv in *. Lra.lra.
Qed.

(** Above [2^40] the logarithm exceeds [40 ln 2] by at least [1/(2^40+1)]. *)
Lemma ln_above_2_40 (x : R) : (1099511627777 <= x)%R ->
  (40 * ln 2 + / 1099511627777 <= ln x)%R.
Proof.
  intros Hx. rewrite <- ln_2_40.
  assert (Hm : (1099511627776 = x * (1099511627776 / x))%R) by (field; Lra.lra).
  rewrite Hm. rewrite ln_mult; [|Lra.lra | unfold Rdiv; apply Rmult_lt_0_compat; [Lra.lra | apply Rinv_0_lt_compat; Lra.lra]].
  pose proof (ln_le_pred (1099511627776 / x) ltac:(unfold Rdiv; apply Rmult_lt_0_compat; [Lra.lra | apply Rinv_0_lt_compat; Lra.lra])).
  assert (Hq : (1099511627776 / x <= 1 - / 1099511627777)%R).
  { apply (Rmult_le_reg_r x); [Lra.lra|]. unfold Rdiv. rewrite Rmult_assoc, Rinv_l by Lra.lra.
    Lra.lra. }
  Lra.lra.
Qed.

Lemma abs_le_bounds (y x e : R) : (Rabs (y - x) <= e)%R -> (x - e <= y <= x + e)%R.
Proof.
  intros H. pose proof (Rle_abs (y - x)). pose proof (Rle_abs (- (y - x))).
  rewrite Rabs_Ropp in *. Lra.lra.
Qed.

Lemma Int_part_between (r : R) (k : Z) : (IZR k <= r < IZR k + 1)%R -> Int_part r = k.
Proof.
  intros [H1 H2]. destruct (base_Int_part r) as [H3 H4].
  assert (Ha : (IZR (Int_part r) < IZR (k + 1))%R) by (rewrite plus_IZR; Lra.lra).
  assert (Hb : (IZR k < IZR (Int_part r + 1))%R) by (rewrite plus_IZR; Lra.lra).
  apply lt_IZR in Ha, Hb. lia.
Qed.

Lemma Int_part_lt (r : R) (k : Z) : (r < IZR k)%R -> Int_part r < k.
Proof.
  intros H. destruct (base_Int_part r) as [H1 _]. apply lt_IZR. Lra.lra.
Qed.

Lemma Int_part_ge (r : R) (k : Z) : (IZR k <= r)%R -> k <= Int_part r.
Proof.
  intros H. destruct (base_Int_part r) as [_ H2].
  assert (Hb : (IZR k < IZR (Int_part r + 1))%R) by (rewrite plus_IZR; Lra.lra).
  apply lt_IZR in Hb. lia.
Qed.

Lemma div_lt_of (a c k : R) : (0 < c)%R -> (a < k * c)%R -> (a / c < k)%R.
Proof.
  intros Hc H. apply (Rmult_lt_reg_r c); [exact Hc|]. unfold Rdiv.
  rewrite Rmult_assoc, Rinv_l by Lra.lra. Lra.lra.
Qed.

Lemma le_div_of (a c k : R) : (0 < c)%R -> (k * c <= a)%R -> (k <= a / c)%R.
Proof.
  intros Hc H. apply (Rmult_le_reg_r c); [exact Hc|]. unfold Rdiv.
  rewrite Rmult_assoc, Rinv_l by Lra.lra. Lra.lra.
Qed.

Section FormatFileSizeFacts.

Variable Math_log : R -> option R.
Variable fdiv : R -> R -> R.
Variable fixed_text : Z -> option Z -> string.

(** [Math.log(1)] is [+0] (ECMA-262, 21.3.2.20). *)
Hypothesis log_one : Math_log 1%R = Some 0%R.
(** Above 1 the engine's logarithm is within one unit roundoff of [ln],
    relatively (one ulp). *)
Hypothesis log_accuracy : forall x, (1 < x)%R ->
  exists y, Math_log x = Some y /\ (Rabs (y - ln x) <= unit_roundoff * ln x)%R.
(** The division of doubles is correctly rounded. *)
Hypothesis div_accuracy : forall a c, (0 < c)%R ->
  (Rabs (fdiv a c - a / c) <= unit_roundoff * Rabs (a / c))%R.

Lemma log_bounds (b : Z) : 1 <= b ->
  exists lb, Math_log (IZR b) = Some lb /\
    ((1 - unit_roundoff) * ln (IZR b) <= lb <= (1 + unit_roundoff) * ln (IZR b))%R.
Proof.
  intros Hb. unfold unit_roundoff. destruct (Z.eq_dec b 1) as [->|Hb1].
  - exists 0%R. split; [exact log_one|]. rewrite ln_1. Lra.lra.
  - assert (H1 : (1 < IZR b)%R) by (apply IZR_lt; lia).
    destruct (log_accuracy (IZR b) H1) as (y & Hy & Ha). exists y. split; [exact Hy|].
    apply abs_le_bounds in Ha. unfold unit_roundoff in Ha. Lra.lra.
Qed.

Lemma log_1024_bounds :
  exists lk, Math_log 1024%R = Some lk /\
    ((1 - unit_roundoff) * (10 * ln 2) <= lk <= (1 + unit_roundoff) * (10 * ln 2))%R.
Proof.
  destruct (log_accuracy 1024 ltac:(Lra.lra)) as (y & Hy & Ha). exists y. split; [exact Hy|].
  apply abs_le_bounds in Ha. rewrite ln_1024 in Ha. unfold unit_roundoff in *. Lra.lra.
Qed.

Lemma fdiv_bounds (a c : R) : (0 <= a)%R -> (0 < c)%R ->
  ((1 - unit_roundoff) * (a / c) <= fdiv a c <= (1 + unit_roundoff) * (a / c))%R.
Proof.
  intros Ha Hc. pose proof (div_accuracy a c Hc) as H.
  assert (Hq : (0 <= a / c)%R) by (unfold Rdiv; apply Rmult_le_pos; [exact Ha | apply Rlt_le, Rinv_0_lt_compat, Hc]).
  rewrite (Rabs_pos_eq (a / c) Hq) in H. apply abs_le_bounds in H. Lra.lra.
Qed.

(** The computed quotient, bounded on both sides. *)
Lemma unit_index_quotient (b : Z) : 1 <= b ->
  exists r, unit_index Math_log fdiv b = Some (Int_part r) /\
    ((1 - unit_roundoff) * ((1 - unit_roundoff) * ln (IZR b)) <= r * ((1 + unit_roundoff) * (10 * ln 2)))%R /\
    (r * ((1 - unit_roundoff) * (10 * ln 2)) <= (1 + unit_roundoff) * ((1 + unit_roundoff) * ln (IZR b)))%R.
Proof.
  intros Hb. destruct (log_bounds b Hb) as (lb & Hlb & Hlb1 & Hlb2).
  destruct log_1024_bounds as (lk & Hlk & Hlk1 & Hlk2).
  pose proof ln2_bounds as HL.
  assert (Hlnb : (0 <= ln (IZR b))%R).
  { destruct (Z.eq_dec b 1) as [->|Hb1]; [rewrite ln_1; Lra.lra|].
    rewrite <- ln_1. apply Rlt_le, ln_increasing; [Lra.lra | apply IZR_lt; lia]. }
  assert (Hu : (0 < unit_roundoff < 1 / 1000)%R) by (unfold unit_roundoff; Lra.lra).
  assert (Hk : (0 < lk)%R).
  { apply (Rlt_le_trans _ ((1 - unit_roundoff) * (10 * ln 2))); [apply Rmult_lt_0_compat; Lra.lra | exact Hlk1]. }
  assert (Hlb0 : (0 <= lb)%R).
  { apply (Rle_trans _ ((1 - unit_roundoff) * ln (IZR b))); [apply Rmult_le_pos; Lra.lra | exact Hlb1]. }
  exists (fdiv lb lk). split; [unfold unit_index; rewrite Hlb, Hlk; reflexivity|].
  destruct (fdiv_bounds lb lk Hlb0 Hk) as [Hr1 Hr2].
  assert (Hq : (lb / lk * lk = lb)%R) by (field; Lra.lra).
  set (q := (lb / lk)%R) in *. set (r := fdiv lb lk) in *. set (u := unit_roundoff) in *.
  set (L := ln 2) in *. set (l := ln (IZR b)) in *.
  assert (Hq0 : (0 <= q)%R) by (unfold q, Rdiv; apply Rmult_le_pos; [exact Hlb0 | apply Rlt_le, Rinv_0_lt_compat, Hk]).
  split.
  - (* r * (1+u) 10L >= (1-u) q (1+u) 10L >= (1-u) q lk = (1-u) lb >= (1-u)(1-u) l *)
    assert (A : ((1 - u) * q * lk <= r * ((1 + u) * (10 * L)))%R).
    { apply (Rle_trans _ ((1 - u) * q * ((1 + u) * (10 * L)))).
      - apply Rmult_le_compat_l; [apply Rmult_le_pos; Lra.lra | exact Hlk2].
      - apply Rmult_le_compat_r; [apply Rmult_le_pos; Lra.lra | exact Hr1]. }
    assert (B : ((1 - u) * q * lk = (1 - u) * lb)%R) by (rewrite Rmult_assoc, Hq; reflexivity).
    assert (C : ((1 - u) * ((1 - u) * l) <= (1 - u) * lb)%R) by (apply Rmult_le_compat_l; Lra.lra).
    Lra.lra.
  - assert (A : (r * ((1 - u) * (10 * L)) <= (1 + u) * q * lk)%R).
    { apply (Rle_trans _ ((1 + u) * q * ((1 - u) * (10 * L)))).
      - apply Rmult_le_compat_r; [apply Rmult_le_pos; Lra.lra | exact Hr2].
      - apply Rmult_le_compat_l; [apply Rmult_le_pos; Lra.lra | exact Hlk1]. }
    assert (B : ((1 + u) * q * lk = (1 + u) * lb)%R) by (rewrite Rmult_assoc, Hq; reflexivity).
    assert (C : ((1 + u) * lb <= (1 + u) * ((1 + u) * l))%R) by (apply Rmult_le_compat_l; Lra.lra).
    Lra.lra.
Qed.

Lemma unit_index_below (b : Z) : 1 <= b < 1024 ^ 4 ->
  exists i, unit_index Math_log fdiv b = Some i /\ 0 <= i <= 3.
Proof.
  intros Hb. destruct (unit_index_quotient b ltac:(lia)) as (r & Hi & Hlo & Hhi).
  exists (Int_part r). split; [exact Hi|].
  pose proof ln2_bounds as HL.
  assert (Hl0 : (0 <= ln (IZR b))%R).
  { destruct (Z.eq_dec b 1) as [->|Hb1]; [rewrite ln_1; Lra.lra|].
    rewrite <- ln_1. apply Rlt_le, ln_increasing; [Lra.lra | apply IZR_lt; lia]. }
  assert (Hl : (ln (IZR b) <= 40 * ln 2 - / 1099511627776)%R).
  { apply ln_below_2_40. split; [apply IZR_lt; lia | apply IZR_le; cbn in Hb; lia]. }
  unfold unit_roundoff in *. set (L := ln 2) in *. set (l := ln (IZR b)) in *.
  split.
  - apply Int_part_ge. apply Rnot_lt_le. intros Hr.
    assert (H : (r * ((1 + / 4503599627370496) * (10 * L)) < 0 * ((1 + / 4503599627370496) * (10 * L)))%R)
      by (apply Rmult_lt_compat_r; [apply Rmult_lt_0_compat; Lra.lra | exact Hr]).
    assert (H' : (0 <= (1 - / 4503599627370496) * ((1 - / 4503599627370496) * l))%R)
      by (repeat apply Rmult_le_pos; Lra.lra).
    Lra.lra.
  - assert (Hr : (r < 4)%R).
    { apply Rnot_le_lt. intros Hr.
      assert (H : (4 * ((1 - / 4503599627370496) * (10 * L)) <= r * ((1 - / 4503599627370496) * (10 * L)))%R)
        by (apply Rmult_le_compat_r; [apply Rmult_le_pos; Lra.lra | exact Hr]).
      assert (H' : ((1 + / 4503599627370496) * ((1 + / 4503599627370496) * l)
                    <= (1 + / 4503599627370496) * ((1 + / 4503599627370496) * (40 * L - / 1099511627776)))%R)
        by (apply Rmult_le_compat_l; [Lra.lra|]; apply Rmult_le_compat_l; Lra.lra).
      Lra.lra. }
    pose proof (Int_part_lt r 4 Hr). lia.
Qed.

Lemma unit_index_above (b : Z) : 1024 ^ 4 < b ->
  exists i, unit_index Math_log fdiv b = Some i /\ 4 <= i.
Proof.
  intros Hb. destruct (unit_index_quotient b ltac:(lia)) as (r & Hi & Hlo & Hhi).
  exists (Int_part r). split; [exact Hi|].
  pose proof ln2_bounds as HL.
  assert (Hl : (40 * ln 2 + / 1099511627777 <= ln (IZR b))%R).
  { apply ln_above_2_40. apply IZR_le. cbn in Hb. lia. }
  unfold unit_roundoff in *. set (L := ln 2) in *. set (l := ln (IZR b)) in *.
  apply Int_part_ge. apply Rnot_lt_le. intros Hr.
  assert (H : (r * ((1 + / 4503599627370496) * (10 * L)) <= 4 * ((1 + / 4503599627370496) * (10 * L)))%R)
    by (apply Rmult_le_compat_r; [apply Rmult_le_pos; Lra.lra | Lra.lra]).
  assert (H' : ((1 - / 4503599627370496) * ((1 - / 4503599627370496) * (40 * L + / 1099511627777))
                <= (1 - / 4503599627370496) * ((1 - / 4503599627370496) * l))%R)
    by (apply Rmult_le_compat_l; [Lra.lra|]; apply Rmult_le_compat_l; Lra.lra).
  Lra.lra.
Qed.

Lemma unit_index_at (b : Z) : b = 1024 ^ 4 ->
  exists i, unit_index Math_log fdiv b = Some i /\ (i = 3 \/ i = 4).
Proof.
  intros Hb. destruct (unit_index_quotient b ltac:(lia)) as (r & Hi & Hlo & Hhi).
  exists (Int_part r). split; [exact Hi|].
  pose proof ln2_bounds as HL.
  assert (Hl : ln (IZR b) = (40 * ln 2)%R) by (rewrite Hb; exact ln_2_40).
  unfold unit_roundoff in *. set (L := ln 2) in *. set (l := ln (IZR b)) in *.
  assert (Hr3 : (3 <= r)%R).
  { apply Rnot_lt_le. intros Hr.
    assert (H : (r * ((1 + / 4503599627370496) * (10 * L)) <= 3 * ((1 + / 4503599627370496) * (10 * L)))%R)
      by (apply Rmult_le_compat_r; [apply Rmult_le_pos; Lra.lra | Lra.lra]).
    rewrite Hl in Hlo. Lra.lra. }
  assert (Hr5 : (r < 5)%R).
  { apply Rnot_le_lt. intros Hr.
    assert (H : (5 * ((1 - / 4503599627370496) * (10 * L)) <= r * ((1 - / 4503599627370496) * (10 * L)))%R)
      by (apply Rmult_le_compat_r; [apply Rmult_le_pos; Lra.lra | exact Hr]).
    rewrite Hl in Hhi. Lra.lra. }
  pose proof (Int_part_ge r 3 Hr3). pose proof (Int_part_lt r 5 Hr5). lia.
Qed.

(** Claim C10. [formatFileSize] gives "Unknown" for an undefined or zero
    byte count. For an engine whose [Math.log] is within one ulp and whose
    division is correctly rounded, every byte count [1 <= b < 1024^4] gets
    a unit index in [0..3], so the text ends in " B", " KB", " MB" or " GB";
    every byte count [b > 1024^4] gets an index of at least 4, off the
    array, so the text ends in " undefined"; at exactly [b = 1024^4] the
    index is 3 or 4, depending on the engine's rounding. *)
Theorem formatFileSize_units :
  formatFileSize Math_log fdiv fixed_text None = "Unknown"%string /\
  formatFileSize Math_log fdiv fixed_text (Some 0) = "Unknown"%string /\
  (forall b, 1 <= b < 1024 ^ 4 ->
     exists i, unit_index Math_log fdiv b = Some i /\ 0 <= i <= 3 /\
       exists unit, In unit sizes /\
         formatFileSize Math_log fdiv fixed_text (Some b) = (fixed_text b (Some i) ++ " " ++ unit)%string) /\
  (forall b, 1024 ^ 4 < b ->
     exists i, unit_index Math_log fdiv b = Some i /\ 4 <= i /\
       formatFileSize Math_log fdiv fixed_text (Some b) = (fixed_text b (Some i) ++ " undefined")%string) /\
  (exists i, unit_index Math_log fdiv (1024 ^ 4) = Some i /\ (i = 3 \/ i = 4)).
Proof.
  split; [reflexivity|]. split; [reflexivity|]. split; [|split].
  - intros b Hb. destruct (unit_index_below b Hb) as (i & Hi & Hr).
    exists i. split; [exact Hi|]. split; [exact Hr|].
    exists (unit_name (Some i)). unfold formatFileSize. rewrite Hi.
    replace (b =? 0) with false by (symmetry; apply Z.eqb_neq; lia).
    split; [|reflexivity].
    cbn [unit_name]. replace ((0 <=? i) && (i <? 4)) with true by (symmetry; apply andb_true_iff; split; [apply Z.leb_le | apply Z.ltb_lt]; lia).
    assert (Hc : i = 0 \/ i = 1 \/ i = 2 \/ i = 3) by lia.
    destruct Hc as [-> | [-> | [-> | ->]]]; cbn; tauto.
  - intros b Hb. destruct (unit_index_above b Hb) as (i & Hi & Hr).
    exists i. split; [exact Hi|]. split; [exact Hr|].
    unfold formatFileSize. rewrite Hi.
    replace (b =? 0) with false by (symmetry; apply Z.eqb_neq; lia).
    cbn [unit_name]. replace (i <? 4) with false by (symmetry; apply Z.ltb_ge; lia).
    rewrite andb_false_r. reflexivity.
  - exact (unit_index_at _ eq_refl).
Qed.

End FormatFileSizeFacts.

(** Claim C10, counterexample. [skewed_log] is a logarithm an engine may
    ship: [log(1) = +0] and it is within one ulp of [ln] above 1. With a
    correctly rounded division, [formatFileSize(1024^4)] then picks the
    index 3 and prints " GB": the index does not leave the array at
    [b = 1024^4]. *)
Theorem formatFileSize_at_2_40_in_range :
  skewed_log 1 = Some 0%R /\
  (forall x, (1 < x)%R -> exists y, skewed_log x = Some y /\ (Rabs (y - ln x) <= unit_roundoff * ln x)%R) /\
  (forall a c, (0 < c)%R -> (Rabs (Rdiv a c - a / c) <= unit_roundoff * Rabs (a / c))%R) /\
  unit_index skewed_log Rdiv (1024 ^ 4) = Some 3 /\
  (forall fixed_text : Z -> option Z -> string,
     formatFileSize skewed_log Rdiv fixed_text (Some (1024 ^ 4))
       = (fixed_text (1024 ^ 4) (Some 3) ++ " GB")%string).
Proof.
  assert (Hidx : unit_index skewed_log Rdiv (1024 ^ 4) = Some 3).
  { unfold unit_index, skewed_log.
    change (IZR (1024 ^ 4)) with 1099511627776%R.
    destruct (Rlt_dec 1099511627776 0) as [H|_]; [Lra.lra|].
    destruct (Req_dec_T 1099511627776 1099511627776) as [_|H]; [|congruence].
    destruct (Rlt_dec 1024 0) as [H|_]; [Lra.lra|].
    destruct (Req_dec_T 1024 1099511627776) as [H|_]; [Lra.lra|].
    f_equal. apply Int_part_between.
    rewrite ln_2_40, ln_1024. pose proof ln2_bounds as HL.
    assert (Hq : ((1 - unit_roundoff) * (40 * ln 2) / (10 * ln 2) = 4 * (1 - unit_roundoff))%R)
      by (field; Lra.lra).
    rewrite Hq. unfold unit_roundoff. Lra.lra. }
  split; [|split; [|split; [|split; [exact Hidx|]]]].
  - unfold skewed_log. destruct (Rlt_dec 1 0); [Lra.lra|].
    destruct (Req_dec_T 1 1099511627776); [Lra.lra|]. rewrite ln_1. reflexivity.
  - intros x Hx. unfold skewed_log. destruct (Rlt_dec x 0); [Lra.lra|].
    assert (Hl : (0 < ln x)%R) by (rewrite <- ln_1; apply ln_increasing; Lra.lra).
    destruct (Req_dec_T x 1099511627776) as [->|_].
    + eexists. split; [reflexivity|].
      replace ((1 - unit_roundoff) * ln 1099511627776 - ln 1099511627776)%R
        with (- (unit_roundoff * ln 1099511627776))%R by ring.
      rewrite Rabs_Ropp, Rabs_pos_eq; [Lra.lra|].
      apply Rmult_le_pos; [unfold unit_roundoff; Lra.lra | Lra.lra].
    + eexists. split; [reflexivity|]. unfold Rminus. rewrite Rplus_opp_r, Rabs_R0.
      apply Rmult_le_pos; unfold unit_roundoff; Lra.lra.
  - intros a c _. unfold Rminus. rewrite Rplus_opp_r, Rabs_R0.
    apply Rmult_le_pos; [unfold unit_roundoff; Lra.lra | apply Rabs_pos].
  - intros fixed_text. unfold formatFileSize. rewrite Hidx. reflexivity.
Qed.

Lemma formatFileSize_units_witness :
  exact_log 1 = Some 0%R /\
  (exists i, unit_index exact_log Rdiv 1536 = Some i /\ 0 <= i <= 3 /\
     exists unit, In unit sizes /\
       formatFileSize exact_log Rdiv (fun _ _ => "1.5"%string) (Some 1536) = ("1.5 " ++ unit)%string).
Proof.
  assert (H1 : exact_log 1 = Some 0%R).
  { unfold exact_log. destruct (Rlt_dec 1 0); [Lra.lra|]. rewrite ln_1. reflexivity. }
  split; [exact H1|].
  assert (Ha : forall x, (1 < x)%R -> exists y, exact_log x = Some y /\ (Rabs (y - ln x) <= unit_roundoff * ln x)%R).
  { intros x Hx. unfold exact_log. destruct (Rlt_dec x 0); [Lra.lra|].
    assert (Hl : (0 < ln x)%R) by (rewrite <- ln_1; apply ln_increasing; Lra.lra).
    eexists. split; [reflexivity|]. unfold Rminus. rewrite Rplus_opp_r, Rabs_R0.
    apply Rmult_le_pos; unfold unit_roundoff; Lra.lra. }
  assert (Hd : forall a c, (0 < c)%R -> (Rabs (Rdiv a c - a / c) <= unit_roundoff * Rabs (a / c))%R).
  { intros a c _. unfold Rminus. rewrite Rplus_opp_r, Rabs_R0.
    apply Rmult_le_pos; [unfold unit_roundoff; Lra.lra | apply Rabs_pos]. }
  destruct (proj1 (proj2 (proj2 (formatFileSize_units exact_log Rdiv (fun _ _ => "1.5"%string) H1 Ha Hd))) 1536 ltac:(cbn; lia))
    as (i & Hi & Hr & u & Hu & Hf).
  exists i. split; [exact Hi|]. split; [exact Hr|]. exists u. split; [exact Hu | exact Hf].
Defined.
